(** * StockFlow case study: product provisioning and low-stock alerts

    A shallow embedding of the two Express handlers of the repository,

      - [POST /api/products]                              (provisioning)
      - [GET  /api/companies/:companyId/alerts/low-stock] (alerts)

    together with the properties their specification states about them.
    The handlers are written in a small state-and-exception monad; the
    relational store they talk to is an explicit value threaded through
    it, and every call they make to the store is recorded in a call log. *)

From stdpp Require Import gmap strings list fin_maps.
From Stdlib Require Import QArith.

Set Warnings "-register-all,-clear-no-such-hyp".

Local Open Scope string_scope.
Local Open Scope list_scope.
Local Open Scope Z_scope.

(** ** JavaScript values, as far as the handlers look at them *)

Module Js.

(** A JSON value, or [undefined] for a missing property.  A number is
    the rational its literal denotes. *)
Inductive value : Type :=
| Undefined
| Null
| Bool (b : bool)
| Num (q : Q)
| Str (s : string)
| Arr (items : list value)
| Obj (fields : list (string * value)).

Definition Int (z : Z) : value := Num (inject_Z z).

(** ToBoolean: [undefined], [null], [false], [0] and [""] are falsy. *)
Definition truthy (v : value) : bool :=
  match v with
  | Undefined | Null => false
  | Bool b => b
  | Num q => negb (Qnum q =? 0)
  | Str s => negb (String.eqb s "")
  | Arr _ | Obj _ => true
  end.

(** [a || b] *)
Definition or (a b : value) : value := if truthy a then a else b.

(** [o.k] on a request body: a missing key reads as [undefined]. *)
Definition prop (o : gmap string value) (k : string) : value :=
  default Undefined (o !! k).

(** Property names of an object literal, in order. *)
Definition keys (v : value) : option (list string) :=
  match v with
  | Obj fields => Some (fields.*1)
  | _ => None
  end.

(** [v.k] on a value built by the handlers. *)
Definition get (v : value) (k : string) : value :=
  match v with
  | Obj fields =>
      default Undefined (snd <$> find (λ f, String.eqb (fst f) k) fields)
  | _ => Undefined
  end.

(** What [res.status(s).json(b)] sends. *)
Record response : Type := Response { status : Z; body : value }.

End Js.

(** ** The handler monad: a world that is threaded, and exceptions *)

Module Eff.

Inductive result (A : Type) : Type :=
| Ok (a : A)
| Throw (e : string).
Arguments Ok {A} a.
Arguments Throw {A} e.

Section Monad.
Context {W : Type}.

Definition M (A : Type) : Type := W → result A * W.

Definition ret {A} (a : A) : M A := λ w, (Ok a, w).

Definition bind {A B} (m : M A) (k : A → M B) : M B :=
  λ w, match m w with
       | (Ok a, w') => k a w'
       | (Throw e, w') => (Throw e, w')
       end.

Definition throw {A} (e : string) : M A := λ w, (Throw e, w).

(** [try { m } catch (error) { h error }] *)
Definition try_catch {A} (m : M A) (h : string → M A) : M A :=
  λ w, match m w with
       | (Ok a, w') => (Ok a, w')
       | (Throw e, w') => h e w'
       end.

Definition modify (f : W → W) : M unit := λ w, (Ok tt, f w).

End Monad.

Arguments M : clear implicits.

(** The status code a run answered with; none when the handler's promise
    rejects, in which case the handler itself sends nothing. *)
Definition http_status (r : result Js.response) : option Z :=
  match r with
  | Ok resp => Some (Js.status resp)
  | Throw _ => None
  end.

End Eff.

Notation "x <- m ;; k" := (Eff.bind m (λ x, k))
  (at level 20, m at level 99, k at level 200, only parsing).
Notation "m ;; k" := (Eff.bind m (λ _, k))
  (at level 100, k at level 200, only parsing, right associativity).

(** ** POST /api/products *)

Module Provisioning.
Import Js Eff.

(** *** The store behind the ORM *)

(** What [Product.create] and [Inventory.create] are handed. *)
Record ProductAttrs : Type :=
  { a_name : value; a_sku : value; a_price : value }.
Record InventoryAttrs : Type :=
  { a_productId : Z; a_warehouseId : value; a_quantity : value }.

(** A created instance: the attributes and, for a product, the key the
    store gave it. *)
Record ProductRow : Type := { id : Z; p_attrs : ProductAttrs }.
Record InventoryRow : Type := { i_attrs : InventoryAttrs }.

Inductive Write : Type :=
| InsertProduct (r : ProductRow)
| InsertInventory (r : InventoryRow).

(** Committed tables, and the writes pending in each open transaction.
    A transaction handle is a key of [open]. *)
Record Store : Type :=
  { products : list ProductRow;
    inventory : list InventoryRow;
    warehouses : list Z;
    open : gmap nat (list Write) }.

Definition with_open (f : gmap nat (list Write) → gmap nat (list Write))
    (s : Store) : Store :=
  {| products := products s; inventory := inventory s;
     warehouses := warehouses s; open := f (open s) |}.

Definition apply_write (s : Store) (wr : Write) : Store :=
  match wr with
  | InsertProduct r =>
      {| products := products s ++ [r]; inventory := inventory s;
         warehouses := warehouses s; open := open s |}
  | InsertInventory r =>
      {| products := products s; inventory := inventory s ++ [r];
         warehouses := warehouses s; open := open s |}
  end.

(** The calls the handler makes to the ORM, in the order it makes them. *)
Inductive Call : Type :=
| Begin
| ProductCreate (a : ProductAttrs) (t : nat)
| InventoryCreate (a : InventoryAttrs) (t : nat)
| Commit (t : nat)
| Rollback (t : nat).

(** How the store answers during one run of the handler.  The handler
    makes each kind of call at most once, so one answer per kind covers
    every behaviour of the store: [Some e] is a rejection with the error
    text [e] (a constraint violation, a lost connection, ...), and
    [assigned_id] is the key a successful product insert receives. *)
Record Replies : Type :=
  { begin_fault : option string;
    product_fault : option string;
    assigned_id : Z;
    inventory_fault : option string;
    commit_fault : option string;
    rollback_fault : option string }.

Record World : Type :=
  { store : Store;
    calls : list Call;
    console : list (string * string) }.

Definition on_store (f : Store → Store) (w : World) : World :=
  {| store := f (store w); calls := calls w; console := console w |}.

Definition call (c : Call) : M World unit :=
  modify (λ w, {| store := store w; calls := calls w ++ [c];
                  console := console w |}).

(** [console.error(label, error)] *)
Definition console_error (label error : string) : M World unit :=
  modify (λ w, {| store := store w; calls := calls w;
                  console := console w ++ [(label, error)] |}).

Definition fault (f : option string) : M World unit :=
  match f with
  | Some e => throw e
  | None => ret tt
  end.

(** The pending writes of [t], or an exception when [t] is not open. *)
Definition pending (t : nat) : M World (list Write) :=
  λ w, match open (store w) !! t with
       | Some ws => (Ok ws, w)
       | None => (Throw "transaction is not open", w)
       end.

(** [sequelize.transaction()] *)
Definition sequelize_transaction (rp : Replies) : M World nat :=
  call Begin ;;
  fault (begin_fault rp) ;;
  λ w, let t := fresh (dom (open (store w))) in
       (Ok t, on_store (with_open (insert t [])) w).

(** [Product.create(attrs, { transaction: t })] *)
Definition Product_create (rp : Replies) (a : ProductAttrs) (t : nat)
    : M World ProductRow :=
  call (ProductCreate a t) ;;
  fault (product_fault rp) ;;
  ws <- pending t ;;
  let row := {| id := assigned_id rp; p_attrs := a |} in
  modify (on_store (with_open (insert t (ws ++ [InsertProduct row])))) ;;
  ret row.

(** [Inventory.create(attrs, { transaction: t })] *)
Definition Inventory_create (rp : Replies) (a : InventoryAttrs) (t : nat)
    : M World InventoryRow :=
  call (InventoryCreate a t) ;;
  fault (inventory_fault rp) ;;
  ws <- pending t ;;
  let row := {| i_attrs := a |} in
  modify (on_store (with_open (insert t (ws ++ [InsertInventory row])))) ;;
  ret row.

(** [t.commit()]: the pending writes reach the tables together. *)
Definition commit (rp : Replies) (t : nat) : M World unit :=
  call (Commit t) ;;
  fault (commit_fault rp) ;;
  ws <- pending t ;;
  modify (on_store (λ s, with_open (delete t) (foldl apply_write s ws))).

(** [t.rollback()]: the pending writes are dropped. *)
Definition rollback (rp : Replies) (t : nat) : M World unit :=
  call (Rollback t) ;;
  fault (rollback_fault rp) ;;
  _ <- pending t ;;
  modify (on_store (with_open (delete t))).

(** *** The handler *)

Definition created (product_id : Z) : response :=
  Response 201 (Obj [("message", Str "Product created successfully");
                     ("product_id", Int product_id)]).
Definition missing_fields : response :=
  Response 400 (Obj [("error", Str "Missing required fields")]).
Definition creation_failed : response :=
  Response 500 (Obj [("error", Str "Failed to create product")]).

Definition post_products (rp : Replies) (body : gmap string value)
    : M World response :=
  t <- sequelize_transaction rp ;;
  try_catch
    (let name := prop body "name" in
     let sku := prop body "sku" in
     let price := prop body "price" in
     let warehouse_id := prop body "warehouse_id" in
     let initial_quantity := prop body "initial_quantity" in
     if negb (truthy name) || negb (truthy sku) || negb (truthy price)
        || negb (truthy warehouse_id)
     then ret missing_fields
     else
       newProduct <- Product_create rp
         {| a_name := name; a_sku := sku; a_price := price |} t ;;
       Inventory_create rp
         {| a_productId := id newProduct;
            a_warehouseId := warehouse_id;
            a_quantity := or initial_quantity (Int 0) |} t ;;
       commit rp t ;;
       ret (created (id newProduct)))
    (λ error,
       rollback rp t ;;
       console_error "Creation failed:" error ;;
       ret creation_failed).

Definition start (s : Store) : World :=
  {| store := s; calls := []; console := [] |}.

(** *** Names for the pieces of one run *)

(** The handle [sequelize.transaction()] returns on store [s]. *)
Definition handle (s : Store) : nat := fresh (dom (open s)).

Definition begun (s : Store) (ws : list Write) : Store :=
  with_open (insert (handle s) ws) s.

(** The test of the [if] in step 1. *)
Definition required_missing (body : gmap string value) : bool :=
  negb (truthy (prop body "name")) || negb (truthy (prop body "sku"))
  || negb (truthy (prop body "price"))
  || negb (truthy (prop body "warehouse_id")).

Definition product_attrs (body : gmap string value) : ProductAttrs :=
  {| a_name := prop body "name"; a_sku := prop body "sku";
     a_price := prop body "price" |}.

Definition inventory_attrs (rp : Replies) (body : gmap string value)
    : InventoryAttrs :=
  {| a_productId := assigned_id rp;
     a_warehouseId := prop body "warehouse_id";
     a_quantity := or (prop body "initial_quantity") (Int 0) |}.

Definition product_row (rp : Replies) (body : gmap string value) : ProductRow :=
  {| id := assigned_id rp; p_attrs := product_attrs body |}.

Definition inventory_row (rp : Replies) (body : gmap string value)
    : InventoryRow :=
  {| i_attrs := inventory_attrs rp body |}.

Definition committed (s : Store) (rp : Replies) (body : gmap string value)
    : Store :=
  {| products := products s ++ [product_row rp body];
     inventory := inventory s ++ [inventory_row rp body];
     warehouses := warehouses s; open := open s |}.

(** *** Store constraints and the scenario of the specification *)

Definition same_text (a b : value) : bool :=
  match a, b with
  | Str x, Str y => String.eqb x y
  | _, _ => false
  end.

Definition names_warehouse (s : Store) (v : value) : bool :=
  match v with
  | Num q => existsb (λ w, Qeq_bool q (inject_Z w)) (warehouses s)
  | _ => false
  end.

Definition no_faults (new_id : Z) : Replies :=
  {| begin_fault := None; product_fault := None; assigned_id := new_id;
     inventory_fault := None; commit_fault := None; rollback_fault := None |}.

(** Modelled from the spec: the declarations of the [Product] and
    [Inventory] models are not part of the source, so the constraints
    they put on an insert are taken from the data model of the
    specification: [sku] is unique among products, and an inventory row
    references an existing warehouse. *)
Definition constraint_replies (s : Store) (body : gmap string value)
    (new_id : Z) : Replies :=
  {| begin_fault := None;
     product_fault :=
       if existsb (λ r, same_text (a_sku (p_attrs r)) (prop body "sku"))
            (products s)
       then Some "Validation error: sku must be unique" else None;
     assigned_id := new_id;
     inventory_fault :=
       if names_warehouse s (prop body "warehouse_id") then None
       else Some "Foreign key constraint failed: warehouseId";
     commit_fault := None;
     rollback_fault := None |}.

(** Company 1's warehouse 1 stocks five of "Widget". *)
Definition widget_store : Store :=
  {| products :=
       [{| id := 1;
           p_attrs := {| a_name := Str "Widget"; a_sku := Str "W-1";
                         a_price := Num (5 # 1) |} |}];
     inventory :=
       [{| i_attrs := {| a_productId := 1; a_warehouseId := Int 1;
                         a_quantity := Int 5 |} |}];
     warehouses := [1];
     open := ∅ |}.

(** [{name: "Widget2", sku: "W-1", price: 9.99, warehouse_id: 1}] *)
Definition widget2_body : gmap string value :=
  {[ "name" := Str "Widget2"; "sku" := Str "W-1";
     "price" := Num (999 # 100); "warehouse_id" := Int 1 ]}.

(** [{name: "Gadget", sku: "G-1", price: 9.99, warehouse_id: 1}] *)
Definition gadget_body : gmap string value :=
  {[ "name" := Str "Gadget"; "sku" := Str "G-1";
     "price" := Num (999 # 100); "warehouse_id" := Int 1 ]}.

(** The same for a warehouse that does not exist. *)
Definition stray_body : gmap string value :=
  <[ "warehouse_id" := Int 99 ]> gadget_body.

(** The same with [initial_quantity: -5]. *)
Definition negative_body : gmap string value :=
  <[ "initial_quantity" := Int (-5) ]> gadget_body.

(** A store that cannot be reached: every call is rejected. *)
Definition unreachable : Replies :=
  {| begin_fault := Some "ECONNREFUSED"; product_fault := Some "ECONNREFUSED";
     assigned_id := 0; inventory_fault := Some "ECONNREFUSED";
     commit_fault := Some "ECONNREFUSED";
     rollback_fault := Some "ECONNREFUSED" |}.

(** The connection is lost once the product is inserted. *)
Definition connection_lost : Replies :=
  {| begin_fault := None; product_fault := None; assigned_id := 2;
     inventory_fault := Some "ECONNRESET"; commit_fault := Some "ECONNRESET";
     rollback_fault := Some "ECONNRESET" |}.

(** *** Reading a run, and serving several requests *)

(** The values [!v] is true of. *)
Definition falsy (v : value) : Prop :=
  v = Undefined ∨ v = Null ∨ v = Bool false
  ∨ (∃ q, v = Num q ∧ Qnum q = 0) ∨ v = Str "".

(** The error the [catch] receives: that of the first call of the [try]
    block the store rejects. *)
Definition first_fault (rp : Replies) : option string :=
  match product_fault rp, inventory_fault rp with
  | Some e, _ => Some e
  | None, Some e => Some e
  | None, None => commit_fault rp
  end.

(** The transaction a call is made in. *)
Definition transaction_of (c : Call) : option nat :=
  match c with
  | Begin => None
  | ProductCreate _ t | InventoryCreate _ t | Commit t | Rollback t => Some t
  end.

(** The calls of a run in which nothing fails. *)
Definition all_calls (rp : Replies) (s : Store) (body : gmap string value)
    : list Call :=
  [Begin; ProductCreate (product_attrs body) (handle s);
   InventoryCreate (inventory_attrs rp body) (handle s); Commit (handle s)].

(** Requests handled one after the other, each on the store the previous
    one left, each with its own answers from the store. *)
Fixpoint serve (reqs : list (Replies * gmap string value)) (s : Store)
    : list (result response) * Store :=
  match reqs with
  | [] => ([], s)
  | (rp, body) :: rest =>
      let out := post_products rp body (start s) in
      let served := serve rest (store out.2) in
      (out.1 :: served.1, served.2)
  end.

Definition answered (code : Z) (outs : list (result response)) : nat :=
  length (filter (λ o, http_status o = Some code) outs).

(** [gadget_body] with a property the handler does not name. *)
Definition supplied_body : gmap string value :=
  <[ "supplier_id" := Int 100 ]> gadget_body.

(** A store in which another request's transaction is in progress. *)
Definition busy_store : Store :=
  {| products := products widget_store; inventory := inventory widget_store;
     warehouses := [1];
     open := {[ 0%nat := [InsertProduct
                            {| id := 9;
                               p_attrs := product_attrs widget2_body |}] ]} |}.

End Provisioning.

(** ** GET /api/companies/:companyId/alerts/low-stock *)

Module Alerts.
Import Js Eff.

(** *** The tables the query reads

    Only the columns the [SELECT] names.  Keys are integers; the route
    segment [companyId] is taken as the key it denotes. *)

Record Product : Type :=
  { p_id : Z; p_name : string; p_sku : string; p_supplier_id : Z }.
Record Inventory : Type :=
  { i_product_id : Z; i_warehouse_id : Z; i_quantity : Z }.
Record Warehouse : Type :=
  { w_id : Z; w_name : string; w_company_id : Z }.
Record Supplier : Type :=
  { s_id : Z; s_name : string; s_email : string }.

Record Db : Type :=
  { companies : list Z;
    products : list Product;
    inventory : list Inventory;
    warehouses : list Warehouse;
    suppliers : list Supplier }.

(** One row of the result set, under the column names of the [SELECT]. *)
Record Item : Type :=
  { id : Z; name : string; sku : string;
    warehouse_id : Z; warehouse_name : string;
    quantity : Z;
    supplier_id : Z; supplier_name : string; email : string }.

Definition Joined : Type := Product * Inventory * Warehouse * Supplier.

(** [FROM products p JOIN inventory i ON p.id = i.product_id
     JOIN warehouses w ON i.warehouse_id = w.id
     JOIN suppliers s ON p.supplier_id = s.id]

    The statement has no [ORDER BY]: the order of the rows below (that of
    nested loops, products outermost) is one an engine may return, not
    the only one. *)
Definition from_join (db : Db) : list Joined :=
  p ← products db;
  i ← filter (λ i, p_id p = i_product_id i) (inventory db);
  w ← filter (λ w, i_warehouse_id i = w_id w) (warehouses db);
  s ← filter (λ s, p_supplier_id p = s_id s) (suppliers db);
  [(p, i, w, s)].

(** The [SELECT] list. *)
Definition select_item (r : Joined) : Item :=
  let '(p, i, w, s) := r in
  {| id := p_id p; name := p_name p; sku := p_sku p;
     warehouse_id := w_id w; warehouse_name := w_name w;
     quantity := i_quantity i;
     supplier_id := s_id s; supplier_name := s_name s; email := s_email s |}.

(** [WHERE w.company_id = ?] *)
Definition of_company (companyId : Z) (r : Joined) : Prop :=
  w_company_id (r.1.2) = companyId.

#[global] Instance of_company_dec c r : Decision (of_company c r).
Proof. unfold of_company. apply _. Defined.

Definition low_stock_query (db : Db) (companyId : Z) : list Item :=
  select_item <$> filter (of_company companyId) (from_join db).

(** *** The handler *)

Record World : Type :=
  { queries : list Z;       (* one entry, the bound parameter, per [db.query] *)
    iterations : nat;       (* bodies of the [for ... of] loop executed *)
    console : list string }.

Definition start : World := {| queries := []; iterations := 0; console := [] |}.

(** [db.query(sql, [companyId])]: [Some e] is a failing read. *)
Definition db_query (db : Db) (failure : option string) (companyId : Z)
    : M World (list Item) :=
  modify (λ w, {| queries := queries w ++ [companyId];
                  iterations := iterations w; console := console w |}) ;;
  match failure with
  | Some e => throw e
  | None => ret (low_stock_query db companyId)
  end.

Definition console_error (error : string) : M World unit :=
  modify (λ w, {| queries := queries w; iterations := iterations w;
                  console := console w ++ [error] |}).

Definition tick : M World unit :=
  modify (λ w, {| queries := queries w; iterations := S (iterations w);
                  console := console w |}).

(** [for (const x of xs) { acc = body x acc }] *)
Fixpoint for_of {A S : Type} (xs : list A) (body : A → S → S) (acc : S)
    : M World S :=
  match xs with
  | [] => ret acc
  | x :: xs' => tick ;; for_of xs' body (body x acc)
  end.

Definition THRESHOLD : Z := 20.

(** The object literal pushed for one item. *)
Definition alert (item : Item) : value :=
  Obj [("product_id", Int (id item));
       ("product_name", Str (name item));
       ("sku", Str (sku item));
       ("warehouse_name", Str (warehouse_name item));
       ("current_stock", Int (quantity item));
       ("supplier", Obj [("name", Str (supplier_name item));
                         ("contact_email", Str (email item))])].

Definition alerts_body (alerts : list value) : value :=
  Obj [("alerts", Arr alerts);
       ("total_alerts", Int (Z.of_nat (length alerts)))].

Definition server_error : response :=
  Response 500 (Obj [("error", Str "Server Error")]).

Definition get_low_stock (db : Db) (failure : option string) (companyId : Z)
    : M World response :=
  try_catch
    (products <- db_query db failure companyId ;;
     alerts <- for_of products
       (λ item alerts,
          if quantity item <? THRESHOLD then alerts ++ [alert item]
          else alerts) [] ;;
     ret (Response 200 (alerts_body alerts)))
    (λ error,
       console_error error ;;
       ret server_error).

(** *** Names for the pieces of one run *)

Definition low (item : Item) : Prop := quantity item < THRESHOLD.

#[global] Instance low_dec item : Decision (low item).
Proof. unfold low. apply _. Defined.

(** What the loop has pushed once it is through [items]. *)
Definition pushed (items : list Item) : list value :=
  alert <$> filter low items.

Definition loop_body (item : Item) (alerts : list value) : list value :=
  if quantity item <? THRESHOLD then alerts ++ [alert item] else alerts.

(** The property names of an alert and of its supplier. *)
Definition alert_fields : list string :=
  ["product_id"; "product_name"; "sku"; "warehouse_name"; "current_stock";
   "supplier"].
Definition supplier_fields : list string := ["name"; "contact_email"].

(** *** The scenario of the specification *)

(** Company 1 has warehouse W1 with five of "Widget" from Acme; company 2
    has warehouse W2 with three of "Gadget", and W1 also holds twenty of
    "Gadget". *)
Definition widget_db : Db :=
  {| companies := [1; 2];
     products :=
       [{| p_id := 10; p_name := "Widget"; p_sku := "W-1";
           p_supplier_id := 100 |};
        {| p_id := 11; p_name := "Gadget"; p_sku := "G-1";
           p_supplier_id := 100 |}];
     inventory :=
       [{| i_product_id := 10; i_warehouse_id := 5; i_quantity := 5 |};
        {| i_product_id := 11; i_warehouse_id := 5; i_quantity := 20 |};
        {| i_product_id := 11; i_warehouse_id := 6; i_quantity := 3 |}];
     warehouses :=
       [{| w_id := 5; w_name := "W1"; w_company_id := 1 |};
        {| w_id := 6; w_name := "W2"; w_company_id := 2 |}];
     suppliers :=
       [{| s_id := 100; s_name := "Acme"; s_email := "a@acme.com" |}] |}.

(** *** Restricting the tables *)

(** The tables without the warehouses of other companies. *)
Definition only_warehouses_of (c : Z) (db : Db) : Db :=
  {| companies := companies db; products := products db;
     inventory := inventory db;
     warehouses := filter (λ w, w_company_id w = c) (warehouses db);
     suppliers := suppliers db |}.

(** The alerts array of a 200 answer. *)
Definition alerts_of (r : response) : list value :=
  match get (body r) "alerts" with
  | Arr alerts => alerts
  | _ => []
  end.

(** [widget_db] with a product that names a supplier nobody is: two of
    "Gizmo" in W1. *)
Definition gizmo_db : Db :=
  {| companies := companies widget_db;
     products := products widget_db
       ++ [{| p_id := 12; p_name := "Gizmo"; p_sku := "Z-1";
              p_supplier_id := 999 |}];
     inventory := inventory widget_db
       ++ [{| i_product_id := 12; i_warehouse_id := 5; i_quantity := 2 |}];
     warehouses := warehouses widget_db;
     suppliers := suppliers widget_db |}.

(** *** The rows the contract names, worded apart from the query

    These follow the wording of the contract, not the shape of the
    [SELECT]: every combination of one row of each table is looked at, and
    kept when it is a linked (product, inventory, warehouse, supplier)
    row of the company with quantity below 20. *)

Definition all_tuples (db : Db) : list Joined :=
  p ← products db; i ← inventory db; w ← warehouses db; s ← suppliers db;
  [(p, i, w, s)].

(** The inventory row is the product's, it is in that warehouse, and the
    supplier is the product's. *)
Definition is_joined (r : Joined) : Prop :=
  p_id r.1.1.1 = i_product_id r.1.1.2
  ∧ i_warehouse_id r.1.1.2 = w_id r.1.2
  ∧ p_supplier_id r.1.1.1 = s_id r.2.

Definition is_company_row (c : Z) (r : Joined) : Prop :=
  is_joined r ∧ w_company_id r.1.2 = c.

Definition is_low_stock_row (c : Z) (r : Joined) : Prop :=
  is_company_row c r ∧ i_quantity r.1.1.2 < 20.

#[global] Instance is_joined_dec r : Decision (is_joined r).
Proof. unfold is_joined. apply _. Defined.
#[global] Instance is_company_row_dec c r : Decision (is_company_row c r).
Proof. unfold is_company_row. apply _. Defined.
#[global] Instance is_low_stock_row_dec c r : Decision (is_low_stock_row c r).
Proof. unfold is_low_stock_row. apply _. Defined.

(** The alert record the interface gives for such a row. *)
Definition contract_alert (r : Joined) : value :=
  Obj [("product_id", Int (p_id r.1.1.1));
       ("product_name", Str (p_name r.1.1.1));
       ("sku", Str (p_sku r.1.1.1));
       ("warehouse_name", Str (w_name r.1.2));
       ("current_stock", Int (i_quantity r.1.1.2));
       ("supplier", Obj [("name", Str (s_name r.2));
                         ("contact_email", Str (s_email r.2))])].

(** *** A company with [n] well-stocked products

    Products 0 .. n-1 of Acme, twenty of each in warehouse W1 of
    company 1. *)

Definition stock_product (k : nat) : Product :=
  {| p_id := Z.of_nat k; p_name := "Part"; p_sku := "P";
     p_supplier_id := 100 |}.
Definition stock_row (k : nat) : Inventory :=
  {| i_product_id := Z.of_nat k; i_warehouse_id := 5; i_quantity := 20 |}.
Definition stock_warehouse : Warehouse :=
  {| w_id := 5; w_name := "W1"; w_company_id := 1 |}.
Definition stock_supplier : Supplier :=
  {| s_id := 100; s_name := "Acme"; s_email := "a@acme.com" |}.

Definition stock_tuple (k : nat) : Joined :=
  (stock_product k, stock_row k, stock_warehouse, stock_supplier).

Definition stocked (n : nat) : Db :=
  {| companies := [1];
     products := stock_product <$> seq 0 n;
     inventory := stock_row <$> seq 0 n;
     warehouses := [stock_warehouse];
     suppliers := [stock_supplier] |}.

End Alerts.

(** * Properties *)

Module ProvisioningProofs.
Import Js Eff Provisioning.

(** *** Running the provisioning handler, path by path *)

Lemma handle_fresh (s : Store) : open s !! handle s = None.
Proof. unfold handle. apply not_elem_of_dom. apply is_fresh. Qed.

Lemma with_open_closed (s : Store) (ws : list Write) :
  with_open (delete (handle s)) (with_open (insert (handle s) ws) s) = s.
Proof.
  destruct s as [ps inv whs op]; unfold with_open; simpl; f_equal.
  apply delete_insert_id, (handle_fresh (Build_Store ps inv whs op)).
Qed.

Lemma with_open_again (s : Store) (ws ws' : list Write) :
  with_open (insert (handle s) ws') (with_open (insert (handle s) ws) s)
  = with_open (insert (handle s) ws') s.
Proof. unfold with_open; simpl; f_equal. apply insert_insert_eq. Qed.

Lemma with_open_commit (s : Store) ps inv whs (ws : list Write) :
  with_open (delete (handle s))
    {| products := ps; inventory := inv; warehouses := whs;
       open := <[handle s := ws]> (open s) |}
  = {| products := ps; inventory := inv; warehouses := whs; open := open s |}.
Proof.
  unfold with_open; simpl; f_equal. apply delete_insert_id, handle_fresh.
Qed.

(** Unfold one run and evaluate it as far as the replies are known. *)
Ltac step :=
  unfold post_products, sequelize_transaction, Product_create,
    Inventory_create, commit, rollback, console_error, call, pending, fault,
    try_catch, bind, ret, throw, modify, start, on_store; simpl.

Ltac tidy s :=
  change (fresh (dom (open s))) with (handle s);
  repeat (first
    [ rewrite lookup_insert_eq
    | rewrite with_open_again
    | rewrite with_open_closed
    | rewrite with_open_commit ]; simpl).

Section Paths.
Variables (rp : Replies) (s : Store) (body : gmap string value).

Let run := post_products rp body (start s).
Let c_product := ProductCreate (product_attrs body) (handle s).
Let c_inventory := InventoryCreate (inventory_attrs rp body) (handle s).

Lemma path_begin_fault e :
  begin_fault rp = Some e →
  run = (Throw e, {| store := s; calls := [Begin]; console := [] |}).
Proof. intros Hb. subst run. step. rewrite Hb. reflexivity. Qed.

Lemma path_missing :
  begin_fault rp = None → required_missing body = true →
  run = (Ok missing_fields,
         {| store := begun s []; calls := [Begin]; console := [] |}).
Proof.
  intros Hb Hm. subst run. step. rewrite Hb. simpl.
  unfold required_missing in Hm. rewrite Hm. reflexivity.
Qed.

Lemma path_product_fault e :
  begin_fault rp = None → required_missing body = false →
  product_fault rp = Some e →
  run = match rollback_fault rp with
        | None =>
            (Ok creation_failed,
             {| store := s; calls := [Begin; c_product; Rollback (handle s)];
                console := [("Creation failed:", e)] |})
        | Some e' =>
            (Throw e',
             {| store := begun s [];
                calls := [Begin; c_product; Rollback (handle s)];
                console := [] |})
        end.
Proof.
  intros Hb Hm Hp. subst run c_product. step. rewrite Hb. simpl.
  unfold required_missing in Hm. rewrite Hm. simpl. rewrite Hp. simpl.
  destruct (rollback_fault rp); simpl; tidy s; reflexivity.
Qed.

Lemma path_inventory_fault e :
  begin_fault rp = None → required_missing body = false →
  product_fault rp = None → inventory_fault rp = Some e →
  run = match rollback_fault rp with
        | None =>
            (Ok creation_failed,
             {| store := s;
                calls := [Begin; c_product; c_inventory; Rollback (handle s)];
                console := [("Creation failed:", e)] |})
        | Some e' =>
            (Throw e',
             {| store := begun s [InsertProduct (product_row rp body)];
                calls := [Begin; c_product; c_inventory; Rollback (handle s)];
                console := [] |})
        end.
Proof.
  intros Hb Hm Hp Hi. subst run c_product c_inventory. step. rewrite Hb. simpl.
  unfold required_missing in Hm. rewrite Hm. simpl. rewrite Hp. simpl.
  tidy s. rewrite Hi. simpl.
  destruct (rollback_fault rp); simpl; tidy s; reflexivity.
Qed.

Lemma path_commit_fault e :
  begin_fault rp = None → required_missing body = false →
  product_fault rp = None → inventory_fault rp = None →
  commit_fault rp = Some e →
  run = match rollback_fault rp with
        | None =>
            (Ok creation_failed,
             {| store := s;
                calls := [Begin; c_product; c_inventory; Commit (handle s);
                          Rollback (handle s)];
                console := [("Creation failed:", e)] |})
        | Some e' =>
            (Throw e',
             {| store := begun s [InsertProduct (product_row rp body);
                                  InsertInventory (inventory_row rp body)];
                calls := [Begin; c_product; c_inventory; Commit (handle s);
                          Rollback (handle s)];
                console := [] |})
        end.
Proof.
  intros Hb Hm Hp Hi Hc. subst run c_product c_inventory. step.
  rewrite Hb. simpl.
  unfold required_missing in Hm. rewrite Hm. simpl. rewrite Hp. simpl.
  tidy s. rewrite Hi. simpl. tidy s. rewrite Hc. simpl.
  destruct (rollback_fault rp); simpl; tidy s; reflexivity.
Qed.

Lemma path_created :
  begin_fault rp = None → required_missing body = false →
  product_fault rp = None → inventory_fault rp = None →
  commit_fault rp = None →
  run = (Ok (created (assigned_id rp)),
         {| store := committed s rp body;
            calls := [Begin; c_product; c_inventory; Commit (handle s)];
            console := [] |}).
Proof.
  intros Hb Hm Hp Hi Hc. subst run c_product c_inventory. step.
  rewrite Hb. simpl.
  unfold required_missing in Hm. rewrite Hm. simpl. rewrite Hp. simpl.
  tidy s. rewrite Hi. simpl. tidy s. rewrite Hc. simpl. tidy s.
  reflexivity.
Qed.

End Paths.

(** One case per way through the handler. *)
Ltac by_paths rp s body :=
  let Hb := fresh "Hb" in let Hm := fresh "Hm" in let Hp := fresh "Hp" in
  let Hi := fresh "Hi" in let Hc := fresh "Hc" in let Hr := fresh "Hr" in
  destruct (begin_fault rp) as [?|] eqn:Hb;
  [ rewrite (path_begin_fault rp s body _ Hb)
  | destruct (required_missing body) eqn:Hm;
    [ rewrite (path_missing rp s body Hb Hm)
    | destruct (product_fault rp) as [?|] eqn:Hp;
      [ rewrite (path_product_fault rp s body _ Hb Hm Hp);
        destruct (rollback_fault rp) as [?|] eqn:Hr
      | destruct (inventory_fault rp) as [?|] eqn:Hi;
        [ rewrite (path_inventory_fault rp s body _ Hb Hm Hp Hi);
          destruct (rollback_fault rp) as [?|] eqn:Hr
        | destruct (commit_fault rp) as [?|] eqn:Hc;
          [ rewrite (path_commit_fault rp s body _ Hb Hm Hp Hi Hc);
            destruct (rollback_fault rp) as [?|] eqn:Hr
          | rewrite (path_created rp s body Hb Hm Hp Hi Hc) ] ] ] ] ].

(** *** Atomicity *)

(** C1.  Provisioning is all or nothing.  Whatever the store answers:
    when the handler answers 201 the tables have gained exactly the new
    product row and the inventory row that references it, and the
    transaction is closed; on every other outcome the product and inventory
    tables are what they were before the call.  When the product insert
    went through and the inventory insert or the commit fails, the handler
    ends by calling rollback on its transaction, and once that rollback
    completes the whole store, open transactions included, is the
    pre-call store. *)
Theorem provisioning_atomic (rp : Replies) (s : Store)
    (body : gmap string value) :
  let out := post_products rp body (start s) in
  let s' := store out.2 in
  (http_status out.1 = Some 201 →
     ∃ p i, products s' = products s ++ [p]
            ∧ inventory s' = inventory s ++ [i]
            ∧ a_productId (i_attrs i) = id p
            ∧ open s' = open s)
  ∧ (http_status out.1 ≠ Some 201 →
     products s' = products s ∧ inventory s' = inventory s)
  ∧ (begin_fault rp = None → required_missing body = false →
     product_fault rp = None →
     is_Some (inventory_fault rp) ∨ is_Some (commit_fault rp) →
     last (calls out.2) = Some (Rollback (handle s))
     ∧ products s' = products s ∧ inventory s' = inventory s
     ∧ (rollback_fault rp = None →
        s' = s ∧ http_status out.1 = Some 500)).
Proof.
  cbv zeta. split; [|split].
  - by_paths rp s body; cbn; try discriminate.
    intros _. by exists (product_row rp body), (inventory_row rp body).
  - by_paths rp s body; cbn; try done.
  - intros Hb Hm Hp Hlater.
    destruct (inventory_fault rp) as [ei|] eqn:Hi.
    + rewrite (path_inventory_fault rp s body ei); try done.
      destruct (rollback_fault rp); cbn; repeat split; try done.
    + destruct (commit_fault rp) as [ec|] eqn:Hc.
      * rewrite (path_commit_fault rp s body ec); try done.
        destruct (rollback_fault rp); cbn; repeat split; try done.
      * destruct Hlater as [[? ?]|[? ?]]; discriminate.
Qed.

Lemma provisioning_atomic_witness :
  let rp := constraint_replies widget_store stray_body 2 in
  let out := post_products rp stray_body (start widget_store) in
  inventory_fault rp = Some "Foreign key constraint failed: warehouseId"
  ∧ last (calls out.2) = Some (Rollback (handle widget_store))
  ∧ store out.2 = widget_store
  ∧ http_status out.1 = Some 500.
Proof.
  cbv zeta.
  destruct (provisioning_atomic (constraint_replies widget_store stray_body 2)
              widget_store stray_body) as (_ & _ & H).
  destruct H as (Hlast & _ & _ & Hsame);
    [reflexivity | reflexivity | reflexivity | left; eexists; reflexivity |].
  destruct Hsame as [Hs Hst]; [reflexivity|].
  split; [reflexivity|].
  split; [exact Hlast|]. split; [exact Hs | exact Hst].
Defined.

(** The duplicate of an existing [sku]: the call fails and the store is
    the one before the call. *)
Example duplicate_sku_leaves_store :
  post_products (constraint_replies widget_store widget2_body 2) widget2_body
    (start widget_store)
  = (Ok creation_failed,
     {| store := widget_store;
        calls := [Begin; ProductCreate (product_attrs widget2_body) 0%nat;
                  Rollback 0%nat];
        console := [("Creation failed:",
                     "Validation error: sku must be unique")] |}).
Proof. vm_compute. reflexivity. Qed.

(** *** Validation *)

Lemma missing_of_falsy (body : gmap string value) :
  truthy (prop body "name") = false ∨ truthy (prop body "sku") = false
  ∨ truthy (prop body "price") = false
  ∨ truthy (prop body "warehouse_id") = false →
  required_missing body = true.
Proof.
  unfold required_missing. intros [H|[H|[H|H]]]; rewrite H; cbn;
    rewrite ?orb_true_r; reflexivity.
Qed.

(** C10.  A request with a falsy [name], [sku], [price] or [warehouse_id]
    is answered 400 after the transaction has been opened: the only call
    made to the store is the one that opens it, neither commit nor rollback
    follows, and the handle that was not in use before the call is an
    open, empty transaction of the store the handler leaves behind. *)
Theorem validation_leaves_transaction_open (rp : Replies) (s : Store)
    (body : gmap string value) :
  begin_fault rp = None →
  truthy (prop body "name") = false ∨ truthy (prop body "sku") = false
  ∨ truthy (prop body "price") = false
  ∨ truthy (prop body "warehouse_id") = false →
  let out := post_products rp body (start s) in
  out.1 = Ok missing_fields
  ∧ http_status out.1 = Some 400
  ∧ calls out.2 = [Begin]
  ∧ (Commit (handle s) ∉ calls out.2)
  ∧ (Rollback (handle s) ∉ calls out.2)
  ∧ open s !! handle s = None
  ∧ open (store out.2) !! handle s = Some [].
Proof.
  intros Hb Hfalsy. cbv zeta.
  rewrite (path_missing rp s body Hb (missing_of_falsy body Hfalsy)). cbn.
  repeat split.
  - intros H. apply list_elem_of_singleton in H. discriminate.
  - intros H. apply list_elem_of_singleton in H. discriminate.
  - apply handle_fresh.
  - apply lookup_insert_eq.
Qed.

Lemma validation_leaves_transaction_open_witness :
  let out := post_products (no_faults 2) ∅ (start widget_store) in
  http_status out.1 = Some 400
  ∧ calls out.2 = [Begin]
  ∧ open widget_store !! handle widget_store = None
  ∧ open (store out.2) !! handle widget_store = Some [].
Proof.
  cbv zeta.
  destruct (validation_leaves_transaction_open (no_faults 2) widget_store ∅)
    as (_ & H400 & Hcalls & _ & _ & Hfresh & Hopen);
    [reflexivity | left; reflexivity |].
  split; [exact H400|]. split; [exact Hcalls|].
  split; [exact Hfresh | exact Hopen].
Defined.

(** C2.  The run of the handler on the empty body [{}]: the answer is 400,
    but the store has been called before it (the transaction is opened
    first and is still open afterwards); and when that first call is
    refused, the same request gets no 400 at all. *)
Theorem validation_runs_inside_transaction :
  post_products (no_faults 2) ∅ (start widget_store)
  = (Ok missing_fields,
     {| store := with_open (insert 0%nat []) widget_store;
        calls := [Begin]; console := [] |})
  ∧ post_products unreachable ∅ (start widget_store)
    = (Throw "ECONNREFUSED",
       {| store := widget_store; calls := [Begin]; console := [] |}).
Proof. split; vm_compute; reflexivity. Qed.

(** *** The quantity of the inventory row *)

Lemma quantity_when_absent (rp : Replies) (body : gmap string value) :
  body !! "initial_quantity" = None →
  a_quantity (inventory_attrs rp body) = Int 0.
Proof. intros H. cbn. unfold prop. rewrite H. reflexivity. Qed.

Lemma quantity_when_negative (rp : Replies) (body : gmap string value) z :
  body !! "initial_quantity" = Some (Int z) → z < 0 →
  a_quantity (inventory_attrs rp body) = Int z.
Proof.
  intros H Hz. cbn. unfold prop. rewrite H. unfold or. cbn.
  destruct (Z.eqb_spec z 0); [lia | reflexivity].
Qed.

(** Every [Inventory.create] of a run carries the attributes computed from
    the body, and is preceded by a successful product insert. *)
Lemma inventory_call_attrs (rp : Replies) (s : Store)
    (body : gmap string value) (a : InventoryAttrs) (t : nat) :
  InventoryCreate a t ∈ calls (post_products rp body (start s)).2 →
  a = inventory_attrs rp body.
Proof.
  by_paths rp s body; cbn; intros H;
    repeat (apply elem_of_cons in H as [H|H]; [try discriminate|]);
    try (by apply elem_of_nil in H);
    by injection H as -> _.
Qed.

(** C4.  For a request whose required fields are present and which has no
    [initial_quantity]: every [Inventory.create] the handler issues carries
    quantity 0, and when the store accepts the transaction, both inserts
    and the commit, the answer is 201 and the one inventory row added to
    the table has quantity 0. *)
Theorem absent_quantity_defaults_to_zero (rp : Replies) (s : Store)
    (body : gmap string value) :
  required_missing body = false →
  body !! "initial_quantity" = None →
  let out := post_products rp body (start s) in
  (∀ a t, InventoryCreate a t ∈ calls out.2 → a_quantity a = Int 0)
  ∧ (begin_fault rp = None → product_fault rp = None →
     inventory_fault rp = None → commit_fault rp = None →
     http_status out.1 = Some 201
     ∧ (InventoryCreate (inventory_attrs rp body) (handle s) ∈ calls out.2)
     ∧ ∃ i, inventory (store out.2) = inventory s ++ [i]
            ∧ a_quantity (i_attrs i) = Int 0).
Proof.
  intros Hm Habsent. cbv zeta. split.
  - intros a t H. apply inventory_call_attrs in H as ->.
    by apply quantity_when_absent.
  - intros Hb Hp Hi Hc. rewrite (path_created rp s body Hb Hm Hp Hi Hc). cbn.
    split; [done|]. split.
    + do 2 apply list_elem_of_further. apply list_elem_of_here.
    + exists (inventory_row rp body). split; [done|].
      by apply quantity_when_absent.
Qed.

Lemma absent_quantity_defaults_to_zero_witness :
  let out := post_products (no_faults 2) gadget_body (start widget_store) in
  http_status out.1 = Some 201
  ∧ ∃ i, inventory (store out.2) = inventory widget_store ++ [i]
         ∧ a_quantity (i_attrs i) = Int 0.
Proof.
  cbv zeta.
  destruct (absent_quantity_defaults_to_zero (no_faults 2) widget_store
              gadget_body) as [_ H]; [reflexivity | reflexivity |].
  destruct H as (H201 & _ & Hrow); [reflexivity ..|].
  split; [exact H201 | exact Hrow].
Defined.

(** C5, as the code has it.  A request whose required fields are present
    and whose [initial_quantity] is a negative integer is not a validation
    failure: no run answers it with 400; once the transaction is open and
    the product insert has gone through, [Inventory.create] is called with
    that negative quantity unchanged; and when the store accepts it and
    the commit, the answer is 201 and the inventory row added to the table
    has the negative quantity. *)
Theorem negative_quantity_passed_on (rp : Replies) (s : Store)
    (body : gmap string value) (z : Z) :
  required_missing body = false →
  body !! "initial_quantity" = Some (Int z) → z < 0 →
  let out := post_products rp body (start s) in
  http_status out.1 ≠ Some 400
  ∧ (begin_fault rp = None → product_fault rp = None →
     ∃ a, InventoryCreate a (handle s) ∈ calls out.2 ∧ a_quantity a = Int z)
  ∧ (begin_fault rp = None → product_fault rp = None →
     inventory_fault rp = None → commit_fault rp = None →
     http_status out.1 = Some 201
     ∧ ∃ i, inventory (store out.2) = inventory s ++ [i]
            ∧ a_quantity (i_attrs i) = Int z).
Proof.
  intros Hm Hq Hz. cbv zeta.
  pose proof (quantity_when_negative rp body z Hq Hz) as Hquantity.
  split; [|split].
  - by_paths rp s body; cbn; try discriminate.
  - intros Hb Hp. exists (inventory_attrs rp body). split; [|done].
    destruct (inventory_fault rp) as [ei|] eqn:Hi.
    { rewrite (path_inventory_fault rp s body ei Hb Hm Hp Hi).
      destruct (rollback_fault rp); cbn;
        do 2 apply list_elem_of_further; apply list_elem_of_here. }
    destruct (commit_fault rp) as [ec|] eqn:Hc.
    { rewrite (path_commit_fault rp s body ec Hb Hm Hp Hi Hc).
      destruct (rollback_fault rp); cbn;
        do 2 apply list_elem_of_further; apply list_elem_of_here. }
    rewrite (path_created rp s body Hb Hm Hp Hi Hc). cbn.
    do 2 apply list_elem_of_further. apply list_elem_of_here.
  - intros Hb Hp Hi Hc. rewrite (path_created rp s body Hb Hm Hp Hi Hc). cbn.
    split; [done|]. by exists (inventory_row rp body).
Qed.

Lemma negative_quantity_passed_on_witness :
  let out := post_products (no_faults 2) negative_body (start widget_store) in
  http_status out.1 = Some 201
  ∧ ∃ i, inventory (store out.2) = inventory widget_store ++ [i]
         ∧ a_quantity (i_attrs i) = Int (-5).
Proof.
  cbv zeta.
  destruct (negative_quantity_passed_on (no_faults 2) widget_store
              negative_body (-5)) as (_ & _ & H);
    [reflexivity | reflexivity | reflexivity |].
  apply H; reflexivity.
Defined.

(** C5, as stated, fails on [{name: "Gadget", sku: "G-1", price: 9.99,
    warehouse_id: 1, initial_quantity: -5}] with a store that accepts the
    inserts: the request is not rejected, both inserts are attempted, and
    an inventory row with quantity -5 is committed. *)
Lemma negative_quantity_is_written :
  let out := post_products (no_faults 2) negative_body (start widget_store) in
  out.1 = Ok (created 2)
  ∧ calls out.2
    = [Begin;
       ProductCreate {| a_name := Str "Gadget"; a_sku := Str "G-1";
                        a_price := Num (999 # 100) |} 0%nat;
       InventoryCreate {| a_productId := 2; a_warehouseId := Int 1;
                          a_quantity := Int (-5) |} 0%nat;
       Commit 0%nat]
  ∧ inventory (store out.2)
    = inventory widget_store
      ++ [{| i_attrs := {| a_productId := 2; a_warehouseId := Int 1;
                           a_quantity := Int (-5) |} |}].
Proof. cbv zeta. repeat split; vm_compute; reflexivity. Qed.

(** *** The answers of the handler *)

(** With the transaction opened and a rollback that completes, the answer
    is one of the three of the contract, and the 500 body is the same
    whatever the error text was; the text goes to the console. *)
Lemma response_contract (rp : Replies) (s : Store) (body : gmap string value) :
  begin_fault rp = None → rollback_fault rp = None →
  let out := post_products rp body (start s) in
  (out.1 = Ok (created (assigned_id rp)) ∧ console out.2 = []
   ∧ required_missing body = false ∧ product_fault rp = None
   ∧ inventory_fault rp = None ∧ commit_fault rp = None)
  ∨ (out.1 = Ok missing_fields ∧ console out.2 = []
     ∧ required_missing body = true)
  ∨ (∃ e, out.1 = Ok creation_failed
          ∧ console out.2 = [("Creation failed:", e)]
          ∧ required_missing body = false
          ∧ (product_fault rp = Some e
             ∨ product_fault rp = None ∧ inventory_fault rp = Some e
             ∨ product_fault rp = None ∧ inventory_fault rp = None
               ∧ commit_fault rp = Some e)).
Proof.
  intros Hb Hr. cbv zeta.
  destruct (required_missing body) eqn:Hm.
  { right; left. by rewrite (path_missing rp s body Hb Hm). }
  destruct (product_fault rp) as [e|] eqn:Hp.
  { right; right. exists e.
    rewrite (path_product_fault rp s body e Hb Hm Hp), Hr. cbn. tauto. }
  destruct (inventory_fault rp) as [e|] eqn:Hi.
  { right; right. exists e.
    rewrite (path_inventory_fault rp s body e Hb Hm Hp Hi), Hr. cbn. tauto. }
  destruct (commit_fault rp) as [e|] eqn:Hc.
  { right; right. exists e.
    rewrite (path_commit_fault rp s body e Hb Hm Hp Hi Hc), Hr. cbn. tauto. }
  left. by rewrite (path_created rp s body Hb Hm Hp Hi Hc).
Qed.

(** C7.  Two runs in which the store fails and the handler answers
    nothing.  With a store that cannot be reached, opening the transaction
    is refused outside the [try], so the handler's promise rejects.  With a
    connection lost after the product insert, the inventory insert fails,
    the rollback in the [catch] fails too, and the handler's promise
    rejects before anything is logged or sent. *)
Theorem store_failure_without_response :
  post_products unreachable gadget_body (start widget_store)
  = (Throw "ECONNREFUSED",
     {| store := widget_store; calls := [Begin]; console := [] |})
  ∧ (let out := post_products connection_lost gadget_body (start widget_store)
     in out.1 = Throw "ECONNRESET"
        ∧ http_status out.1 = None
        ∧ last (calls out.2) = Some (Rollback 0%nat)
        ∧ console out.2 = []).
Proof. cbv zeta. repeat split; vm_compute; reflexivity. Qed.

End ProvisioningProofs.

Module AlertsProofs.
Import Js Eff Alerts.

(** *** Running the alerts handler *)

Lemma for_of_run {A S} (xs : list A) (body : A → S → S) (acc : S)
    (w : World) :
  for_of xs body acc w
  = (Ok (foldl (λ a x, body x a) acc xs),
     {| queries := queries w;
        iterations := (length xs + iterations w)%nat;
        console := console w |}).
Proof.
  revert acc w. induction xs as [|x xs IH]; intros acc w.
  - destruct w; reflexivity.
  - cbn [for_of]. unfold bind, tick, modify. rewrite IH. cbn.
    do 2 f_equal. lia.
Qed.

Lemma loop_pushes (items : list Item) (acc : list value) :
  foldl (λ a x, loop_body x a) acc items = acc ++ pushed items.
Proof.
  revert acc. induction items as [|x xs IH]; intros acc; cbn [foldl].
  - unfold pushed. cbn. by rewrite app_nil_r.
  - rewrite IH. unfold loop_body, pushed. rewrite filter_cons.
    destruct (Z.ltb_spec (quantity x) THRESHOLD).
    + rewrite decide_True by done. cbn. by rewrite <- app_assoc.
    + rewrite decide_False by (unfold low; lia). done.
Qed.

Lemma run_ok (db : Db) (c : Z) :
  get_low_stock db None c start
  = (Ok (Response 200 (alerts_body (pushed (low_stock_query db c)))),
     {| queries := [c];
        iterations := length (low_stock_query db c);
        console := [] |}).
Proof.
  unfold get_low_stock, try_catch, bind, db_query, modify, ret, start. cbn.
  rewrite for_of_run. cbn.
  change (λ (a : list value) (x : Item),
            if quantity x <? THRESHOLD then a ++ [alert x] else a)
    with (λ a x, loop_body x a).
  rewrite loop_pushes. cbn. by rewrite Nat.add_0_r.
Qed.

Lemma run_failed (db : Db) (e : string) (c : Z) :
  get_low_stock db (Some e) c start
  = (Ok server_error, {| queries := [c]; iterations := 0; console := [e] |}).
Proof. reflexivity. Qed.

(** Membership in the join, spelled out table by table. *)
Lemma elem_of_from_join (db : Db) (p : Product) (i : Inventory)
    (w : Warehouse) (s : Supplier) :
  (p, i, w, s) ∈ from_join db ↔
    p ∈ products db ∧ i ∈ inventory db ∧ w ∈ warehouses db ∧ s ∈ suppliers db
    ∧ p_id p = i_product_id i ∧ i_warehouse_id i = w_id w
    ∧ p_supplier_id p = s_id s.
Proof.
  unfold from_join. split.
  - intros H.
    apply list_elem_of_bind in H as (p' & H & Hp).
    apply list_elem_of_bind in H as (i' & H & Hi).
    apply list_elem_of_bind in H as (w' & H & Hw).
    apply list_elem_of_bind in H as (s' & H & Hs).
    apply list_elem_of_singleton in H. injection H as -> -> -> ->.
    apply list_elem_of_filter in Hi as [? ?].
    apply list_elem_of_filter in Hw as [? ?].
    apply list_elem_of_filter in Hs as [? ?].
    done.
  - intros (Hp & Hi & Hw & Hs & Epi & Eiw & Eps).
    apply list_elem_of_bind. exists p. split; [|done].
    apply list_elem_of_bind. exists i. split; [|by apply list_elem_of_filter].
    apply list_elem_of_bind. exists w. split; [|by apply list_elem_of_filter].
    apply list_elem_of_bind. exists s. split; [|by apply list_elem_of_filter].
    by apply list_elem_of_singleton.
Qed.

Lemma elem_of_low_stock_query (db : Db) (c : Z) (item : Item) :
  item ∈ low_stock_query db c ↔
    ∃ p i w s, (p, i, w, s) ∈ from_join db ∧ w_company_id w = c
               ∧ item = select_item (p, i, w, s).
Proof.
  unfold low_stock_query. rewrite list_elem_of_fmap. split.
  - intros ([[[p i] w] s] & -> & H). apply list_elem_of_filter in H as [Hc H].
    by exists p, i, w, s.
  - intros (p & i & w & s & H & Hc & ->). exists (p, i, w, s).
    split; [done|]. by apply list_elem_of_filter.
Qed.

Lemma elem_of_pushed (items : list Item) (a : value) :
  a ∈ pushed items ↔ ∃ item, item ∈ items ∧ quantity item < 20 ∧ a = alert item.
Proof.
  unfold pushed. rewrite list_elem_of_fmap. split.
  - intros (item & -> & H). apply list_elem_of_filter in H as [? ?].
    by exists item.
  - intros (item & ? & ? & ->). exists item. split; [done|].
    by apply list_elem_of_filter.
Qed.

(** *** What the query returns *)

(** The spec's scenario: one alert for company 1, with stock 5 and the
    supplier's address, after one read that returned two rows. *)
Example widget_alert :
  get_low_stock widget_db None 1 start
  = (Ok (Response 200
           (Obj [("alerts",
                  Arr [Obj [("product_id", Int 10);
                            ("product_name", Str "Widget");
                            ("sku", Str "W-1");
                            ("warehouse_name", Str "W1");
                            ("current_stock", Int 5);
                            ("supplier",
                             Obj [("name", Str "Acme");
                                  ("contact_email", Str "a@acme.com")])]]);
                 ("total_alerts", Int 1)])),
     {| queries := [1]; iterations := 2; console := [] |}).
Proof. vm_compute. reflexivity. Qed.

(** **** The query against the contract's rows *)

Lemma filter_bind {A B} (Q : B → Prop) `{!∀ x, Decision (Q x)}
    (f : A → list B) (l : list A) :
  filter Q (l ≫= f) = l ≫= (λ x, filter Q (f x)).
Proof.
  induction l as [|x l IH]; [done|].
  by rewrite !bind_cons, filter_app, IH.
Qed.

Lemma bind_filter {A B} (P : A → Prop) `{!∀ x, Decision (P x)}
    (f : A → list B) (l : list A) :
  filter P l ≫= f = l ≫= (λ x, if decide (P x) then f x else []).
Proof.
  induction l as [|x l IH]; [done|].
  rewrite filter_cons, (bind_cons _ x l), <- IH.
  by destruct (decide (P x)).
Qed.

Lemma filter_fmap {A B} (P : B → Prop) `{!∀ y, Decision (P y)}
    (f : A → B) (l : list A) :
  filter P (f <$> l) = f <$> filter (λ x, P (f x)) l.
Proof.
  induction l as [|x l IH]; [done|].
  rewrite fmap_cons, !filter_cons, IH. by destruct (decide (P (f x))).
Qed.

(** A combination that is not linked leaves no row, whatever it is
    combined with further. *)
Lemma no_joined_rows (ws : list Warehouse) (ss : list Supplier)
    (p : Product) (i : Inventory) :
  p_id p ≠ i_product_id i →
  filter is_joined (ws ≫= (λ w, ss ≫= (λ s, [(p, i, w, s)]))) = [].
Proof.
  intros Hne. apply elem_of_nil_inv. intros r Hr.
  apply list_elem_of_filter in Hr as [Hj Hr].
  apply list_elem_of_bind in Hr as (w & Hr & _).
  apply list_elem_of_bind in Hr as (s & Hr & _).
  apply list_elem_of_singleton in Hr as ->. by destruct Hj.
Qed.

Lemma no_joined_suppliers (ss : list Supplier) (p : Product) (i : Inventory)
    (w : Warehouse) :
  i_warehouse_id i ≠ w_id w →
  filter is_joined (ss ≫= (λ s, [(p, i, w, s)])) = [].
Proof.
  intros Hne. apply elem_of_nil_inv. intros r Hr.
  apply list_elem_of_filter in Hr as [Hj Hr].
  apply list_elem_of_bind in Hr as (s & Hr & _).
  apply list_elem_of_singleton in Hr as ->. by destruct Hj as (_ & ? & _).
Qed.

(** The join of the query is the linked combinations, no more and no
    fewer. *)
Lemma from_join_all_tuples (db : Db) :
  from_join db = filter is_joined (all_tuples db).
Proof.
  unfold from_join, all_tuples.
  rewrite filter_bind. apply list_bind_ext; [|done]. intros p.
  rewrite filter_bind, bind_filter. apply list_bind_ext; [|done]. intros i.
  destruct (decide (p_id p = i_product_id i)) as [Epi|Epi];
    [|symmetry; by apply no_joined_rows].
  rewrite filter_bind, bind_filter. apply list_bind_ext; [|done]. intros w.
  destruct (decide (i_warehouse_id i = w_id w)) as [Eiw|Eiw];
    [|symmetry; by apply no_joined_suppliers].
  rewrite filter_bind, bind_filter. apply list_bind_ext; [|done]. intros s.
  rewrite filter_cons, filter_nil.
  destruct (decide (p_supplier_id p = s_id s)) as [Eps|Eps],
    (decide (is_joined (p, i, w, s))) as [Hj|Hj]; try done.
  - destruct Hj. by repeat split.
  - by destruct Hj as (_ & _ & ?).
Qed.

Lemma alert_is_contract_alert (r : Joined) :
  alert (select_item r) = contract_alert r.
Proof. by destruct r as [[[p i] w] s]. Qed.

(** The rows the read returns are the company's linked combinations. *)
Lemma query_rows (db : Db) (c : Z) :
  low_stock_query db c
  = select_item <$> filter (is_company_row c) (all_tuples db).
Proof.
  unfold low_stock_query. rewrite from_join_all_tuples, list_filter_filter.
  f_equal. apply list_filter_iff. intros r.
  unfold is_company_row, of_company. tauto.
Qed.

(** What the loop pushes is the contract's alert of the contract's rows. *)
Lemma pushed_rows (db : Db) (c : Z) :
  pushed (low_stock_query db c)
  = contract_alert <$> filter (is_low_stock_row c) (all_tuples db).
Proof.
  unfold pushed. rewrite query_rows, filter_fmap, list_filter_filter.
  rewrite <- list_fmap_compose.
  etrans; [apply list_fmap_ext; intros ? r _; apply alert_is_contract_alert|].
  f_equal. apply list_filter_iff. intros [[[p i] w] s].
  unfold is_low_stock_row, low, THRESHOLD. cbn. tauto.
Qed.

(** C3.  For every company identifier and every state of the tables, the
    answer is 200 and its alerts are exactly the alert records of the
    (product, inventory, warehouse, supplier) rows whose warehouse belongs
    to that company and whose quantity is below 20: one alert, with the
    contract's fields, for each such combination of table rows, as many
    times as the combination occurs and no others (the order being the
    read's).  So a value is among the alerts if and only if it is the
    record of such a row; every alert has a current stock below 20; and
    [total_alerts] is the number of such rows. *)
Theorem low_stock_exact (db : Db) (c : Z) :
  ∃ alerts : list value,
    (get_low_stock db None c start).1
    = Ok (Response 200
            (Obj [("alerts", Arr alerts);
                  ("total_alerts", Int (Z.of_nat (length alerts)))]))
    ∧ alerts ≡ₚ contract_alert <$> filter (is_low_stock_row c) (all_tuples db)
    ∧ (∀ a : value,
         a ∈ alerts ↔
         ∃ p i w s,
           p ∈ products db ∧ i ∈ inventory db ∧ w ∈ warehouses db
           ∧ s ∈ suppliers db
           ∧ p_id p = i_product_id i ∧ i_warehouse_id i = w_id w
           ∧ p_supplier_id p = s_id s
           ∧ w_company_id w = c ∧ i_quantity i < 20
           ∧ a = Obj [("product_id", Int (p_id p));
                      ("product_name", Str (p_name p));
                      ("sku", Str (p_sku p));
                      ("warehouse_name", Str (w_name w));
                      ("current_stock", Int (i_quantity i));
                      ("supplier", Obj [("name", Str (s_name s));
                                        ("contact_email", Str (s_email s))])])
    ∧ (∀ a : value,
         a ∈ alerts → ∃ q, get a "current_stock" = Int q ∧ q < 20).
Proof.
  exists (pushed (low_stock_query db c)). rewrite run_ok.
  split; [done|]. split; [by rewrite pushed_rows|].
  assert (Hiff : ∀ a : value,
    a ∈ pushed (low_stock_query db c) ↔
    ∃ p i w s,
      p ∈ products db ∧ i ∈ inventory db ∧ w ∈ warehouses db
      ∧ s ∈ suppliers db
      ∧ p_id p = i_product_id i ∧ i_warehouse_id i = w_id w
      ∧ p_supplier_id p = s_id s
      ∧ w_company_id w = c ∧ i_quantity i < 20
      ∧ a = contract_alert (p, i, w, s)).
  { intros a. rewrite elem_of_pushed. split.
    - intros (item & Hitem & Hlow & ->).
      apply elem_of_low_stock_query in Hitem as (p & i & w & s & Hj & Hc & ->).
      apply elem_of_from_join in Hj as (? & ? & ? & ? & ? & ? & ?).
      by exists p, i, w, s.
    - intros (p & i & w & s & Hp & Hi & Hw & Hs & E1 & E2 & E3 & Hc & Hq & ->).
      exists (select_item (p, i, w, s)). split; [|done].
      apply elem_of_low_stock_query. exists p, i, w, s.
      split; [|done]. by apply elem_of_from_join. }
  split; [exact Hiff|].
  intros a Ha. apply Hiff in Ha as (p & i & w & s & Ha).
  exists (i_quantity i). destruct Ha as (_ & _ & _ & _ & _ & _ & _ & _ & ? & ->).
  by split.
Qed.



(** C8.  The body of a 200 answer is [{alerts, total_alerts}] with
    [total_alerts] the length of [alerts]; every alert has exactly the
    properties product_id, product_name, sku, warehouse_name, current_stock
    and supplier, the supplier exactly name and contact_email, and their
    values are the columns of one row the query returned.  A failed read is
    answered 500 and carries no alerts. *)
Theorem alert_shape_and_count (db : Db) (failure : option string) (c : Z) :
  let out := get_low_stock db failure c start in
  (∃ e, failure = Some e ∧ out.1 = Ok server_error)
  ∨ (∃ alerts : list value,
       out.1 = Ok (Response 200
                     (Obj [("alerts", Arr alerts);
                           ("total_alerts", Int (Z.of_nat (length alerts)))]))
       ∧ Forall
           (λ a,
              keys a = Some alert_fields
              ∧ keys (get a "supplier") = Some supplier_fields
              ∧ ∃ item, item ∈ low_stock_query db c
                  ∧ get a "product_id" = Int (id item)
                  ∧ get a "product_name" = Str (name item)
                  ∧ get a "sku" = Str (sku item)
                  ∧ get a "warehouse_name" = Str (warehouse_name item)
                  ∧ get a "current_stock" = Int (quantity item)
                  ∧ get (get a "supplier") "name" = Str (supplier_name item)
                  ∧ get (get a "supplier") "contact_email" = Str (email item))
           alerts).
Proof.
  cbv zeta. destruct failure as [e|].
  - left. exists e. by rewrite run_failed.
  - right. exists (pushed (low_stock_query db c)). rewrite run_ok.
    split; [done|]. apply Forall_forall. intros a Ha.
    apply elem_of_pushed in Ha as (item & Hitem & _ & ->).
    split; [done|]. split; [done|]. exists item. by repeat split.
Qed.

(** **** The cost of one request *)

Lemma stocked_inventory_of (k a m : nat) :
  filter (λ i, Z.of_nat k = i_product_id i) (stock_row <$> seq a m)
  = if decide (a ≤ k < a + m)%nat then [stock_row k] else [].
Proof.
  revert a. induction m as [|m IH]; intros a.
  - cbn. by rewrite decide_False by lia.
  - cbn [seq]. rewrite fmap_cons, filter_cons, IH. cbn [i_product_id stock_row].
    destruct (decide (Z.of_nat k = Z.of_nat a)) as [E|E].
    + apply Nat2Z.inj in E as ->.
      rewrite decide_False by lia. by rewrite decide_True by lia.
    + destruct (decide (S a ≤ k < S a + m)%nat).
      * by rewrite decide_True by lia.
      * by rewrite decide_False by lia.
Qed.

Lemma stocked_join (n : nat) : from_join (stocked n) = stock_tuple <$> seq 0 n.
Proof.
  unfold from_join. cbn [products inventory warehouses suppliers stocked].
  assert (H : ∀ l, Forall (λ k, (k < n)%nat) l →
    (stock_product <$> l) ≫=
      (λ p, filter (λ i, p_id p = i_product_id i) (stock_row <$> seq 0 n) ≫=
        (λ i, filter (λ w, i_warehouse_id i = w_id w) [stock_warehouse] ≫=
          (λ w, filter (λ s, p_supplier_id p = s_id s) [stock_supplier] ≫=
            (λ s, [(p, i, w, s)]))))
    = stock_tuple <$> l).
  { induction l as [|k l IH]; intros Hl; [done|].
    apply Forall_cons in Hl as [Hk Hl].
    rewrite !fmap_cons, bind_cons, (IH Hl). cbn [p_id stock_product].
    rewrite stocked_inventory_of, decide_True by lia. reflexivity. }
  apply H, Forall_forall. intros k Hk. apply elem_of_seq in Hk. lia.
Qed.

(** With [n] products at quantity 20, the read returns [n] rows and none
    of them is an alert. *)
Lemma stocked_rows (n : nat) :
  length (low_stock_query (stocked n) 1) = n
  ∧ pushed (low_stock_query (stocked n) 1) = [].
Proof.
  unfold low_stock_query. rewrite stocked_join.
  assert (Hall : filter (of_company 1) (stock_tuple <$> seq 0 n)
                 = stock_tuple <$> seq 0 n).
  { induction (seq 0 n) as [|k l IH]; [done|].
    rewrite fmap_cons, filter_cons_True by done. by rewrite IH. }
  rewrite Hall. split; [by rewrite !length_fmap, length_seq|].
  apply elem_of_nil_inv. intros a Ha.
  apply elem_of_pushed in Ha as (item & Hitem & Hlow & _).
  apply list_elem_of_fmap in Hitem as (r & -> & Hr).
  apply list_elem_of_fmap in Hr as (k & -> & _). cbn in Hlow. lia.
Qed.

(** C9, as stated, fails: the steps of a request are not bounded by any
    function of the number of alerts it returns.  With [n] products of the
    company at quantity 20 the answer has no alert and the loop has run
    [n] times. *)
Lemma cost_follows_stock_not_alerts :
  ¬ ∃ bound : nat → nat,
      ∀ (db : Db) (c : Z) (r : response),
        (get_low_stock db None c start).1 = Ok r →
        (iterations (get_low_stock db None c start).2
         ≤ bound (length (alerts_of r)))%nat.
Proof.
  intros [bound H].
  specialize (H (stocked (S (bound 0%nat))) 1
                (Response 200
                   (alerts_body
                      (pushed (low_stock_query (stocked (S (bound 0%nat))) 1))))).
  rewrite run_ok in H. specialize (H eq_refl). cbn [snd iterations] in H.
  destruct (stocked_rows (S (bound 0%nat))) as [Hlen Hnone].
  rewrite Hlen, Hnone in H. cbn in H. lia.
Qed.

(** C9, as the code has it.  Whatever the tables hold, one request issues
    exactly one read, the join bound to the company identifier, never one
    per product.  When the read completes, the answer is 200 and the loop
    has run once for every linked row of the company, whatever its
    quantity: the threshold is applied inside the loop, so the steps
    follow the company's stocked products, of which the alerts are the
    part below 20.  With [n] products of the company at quantity 20 the
    loop runs [n] times for an answer without alerts.  When the read
    fails the loop is not entered. *)
Theorem one_read_per_request (db : Db) (failure : option string) (c : Z) :
  let out := get_low_stock db failure c start in
  queries out.2 = [c]
  ∧ (failure = None →
     ∃ alerts : list value,
       out.1 = Ok (Response 200 (alerts_body alerts))
       ∧ iterations out.2
         = length (filter (is_company_row c) (all_tuples db))
       ∧ length alerts
         = length (filter (is_low_stock_row c) (all_tuples db))
       ∧ (length alerts ≤ iterations out.2)%nat)
  ∧ (∀ e, failure = Some e →
          out.1 = Ok server_error ∧ iterations out.2 = 0%nat)
  ∧ ∀ n : nat,
      let big := get_low_stock (stocked n) None 1 start in
      length (products (stocked n)) = n
      ∧ queries big.2 = [1]
      ∧ iterations big.2 = n
      ∧ big.1 = Ok (Response 200 (alerts_body [])).
Proof.
  cbv zeta. split; [|split; [|split]].
  - destruct failure; [by rewrite run_failed | by rewrite run_ok].
  - intros ->. rewrite run_ok. cbn [fst snd iterations].
    exists (pushed (low_stock_query db c)). split; [done|].
    split; [by rewrite query_rows, length_fmap|].
    split; [by rewrite pushed_rows, length_fmap|].
    unfold pushed. rewrite length_fmap. apply length_filter.
  - intros e ->. by rewrite run_failed.
  - intros n. rewrite run_ok. cbn [fst snd queries iterations].
    destruct (stocked_rows n) as [-> ->].
    split; [|done]. cbn. by rewrite length_fmap, length_seq.
Qed.

Lemma one_read_per_request_witness :
  let out := get_low_stock widget_db None 1 start in
  queries out.2 = [1] ∧ iterations out.2 = 2%nat
  ∧ ∃ alerts, out.1 = Ok (Response 200 (alerts_body alerts))
              ∧ length alerts = 1%nat.
Proof.
  cbv zeta.
  destruct (one_read_per_request widget_db None 1) as (Hq & Hok & _).
  destruct (Hok eq_refl) as (alerts & Hr & Hi & Hn & _).
  split; [exact Hq|]. split; [rewrite Hi; reflexivity|].
  exists alerts. split; [exact Hr|]. rewrite Hn. reflexivity.
Defined.

End AlertsProofs.

(** * Further properties of the provisioning handler *)

Module ProvisioningMore.
Import Js Eff Provisioning ProvisioningProofs.

(** *** What the handler reads of the body *)

(** The handler reads five properties of the body and nothing else: two
    bodies that agree on [name], [sku], [price], [warehouse_id] and
    [initial_quantity] are treated alike, for the answer, the store, the
    calls and the console. *)
Theorem body_read_through_five_keys (rp : Replies) (s : Store)
    (body body' : gmap string value) :
  body !! "name" = body' !! "name" →
  body !! "sku" = body' !! "sku" →
  body !! "price" = body' !! "price" →
  body !! "warehouse_id" = body' !! "warehouse_id" →
  body !! "initial_quantity" = body' !! "initial_quantity" →
  post_products rp body (start s) = post_products rp body' (start s).
Proof.
  intros Hn Hs Hp Hw Hq. unfold post_products, prop.
  by rewrite Hn, Hs, Hp, Hw, Hq.
Qed.

Lemma body_read_through_five_keys_witness :
  supplied_body ≠ gadget_body
  ∧ post_products (no_faults 2) supplied_body (start widget_store)
    = post_products (no_faults 2) gadget_body (start widget_store).
Proof.
  split.
  - intros H. apply (f_equal (λ m : gmap string value, m !! "supplier_id")) in H.
    vm_compute in H. discriminate.
  - apply (body_read_through_five_keys (no_faults 2) widget_store
             supplied_body gadget_body); reflexivity.
Defined.

(** *** When the answer is 400 *)

Lemma truthy_false_iff (v : value) : truthy v = false ↔ falsy v.
Proof.
  unfold falsy. destruct v as [| |b|q|str|items|fields]; cbn.
  - naive_solver.
  - naive_solver.
  - destruct b; naive_solver.
  - rewrite negb_false_iff, Z.eqb_eq. split.
    + intros H. do 3 right. left. by exists q.
    + intros [?|[?|[?|[(q' & [= <-] & H)|?]]]]; done.
  - rewrite negb_false_iff. destruct str; cbn; naive_solver.
  - naive_solver.
  - naive_solver.
Qed.

Lemma required_missing_iff (body : gmap string value) :
  required_missing body = true ↔
    falsy (prop body "name") ∨ falsy (prop body "sku")
    ∨ falsy (prop body "price") ∨ falsy (prop body "warehouse_id").
Proof.
  unfold required_missing. rewrite !orb_true_iff, !negb_true_iff.
  rewrite !truthy_false_iff. tauto.
Qed.

(** The answer is 400 exactly when the transaction could be opened and one
    of [name], [sku], [price], [warehouse_id] is [undefined], [null],
    [false], a number equal to zero or the empty string.  So a price of 0
    or a warehouse with key 0 is refused as missing. *)
Theorem bad_request_iff (rp : Replies) (s : Store) (body : gmap string value) :
  http_status (post_products rp body (start s)).1 = Some 400 ↔
    begin_fault rp = None
    ∧ (falsy (prop body "name") ∨ falsy (prop body "sku")
       ∨ falsy (prop body "price") ∨ falsy (prop body "warehouse_id")).
Proof.
  rewrite <- required_missing_iff.
  by_paths rp s body; cbn; naive_solver.
Qed.

Lemma bad_request_iff_witness :
  http_status
    (post_products (no_faults 2) (<[ "price" := Int 0 ]> gadget_body)
       (start widget_store)).1 = Some 400.
Proof.
  apply (bad_request_iff (no_faults 2) widget_store
           (<[ "price" := Int 0 ]> gadget_body)).
  split; [reflexivity|]. right; right; left.
  unfold falsy. do 3 right. left. exists (inject_Z 0). split; reflexivity.
Defined.

(** *** The calls of a run *)

(** The calls of a run follow one script: a prefix of begin, product
    insert, inventory insert, commit, in that order and each with the
    attributes computed from the body, followed by at most one rollback;
    every call after the first is made in the transaction the first one
    opened; the script is run to its end without a rollback exactly when
    the answer is 201, and a rollback is called exactly when a call of the
    [try] block was rejected. *)
Theorem calls_follow_script (rp : Replies) (s : Store)
    (body : gmap string value) :
  let out := post_products rp body (start s) in
  (∃ n : nat,
     (1 ≤ n ≤ 4)%nat
     ∧ (calls out.2 = take n (all_calls rp s body)
        ∨ (2 ≤ n)%nat
          ∧ calls out.2 = take n (all_calls rp s body) ++ [Rollback (handle s)]))
  ∧ Forall (λ c, transaction_of c = None ∨ transaction_of c = Some (handle s))
      (calls out.2)
  ∧ (calls out.2 = all_calls rp s body ↔ http_status out.1 = Some 201)
  ∧ (Rollback (handle s) ∈ calls out.2 ↔
       begin_fault rp = None ∧ required_missing body = false
       ∧ is_Some (first_fault rp)).
Proof.
  cbv zeta. unfold first_fault, all_calls.
  by_paths rp s body; cbn [fst snd calls http_status status created
    missing_fields creation_failed].
  - split; [exists 1%nat; split; [lia|by left]|].
    split; [repeat constructor|]. split; [split; discriminate|].
    rewrite list_elem_of_singleton. naive_solver.
  - split; [exists 1%nat; split; [lia|by left]|].
    split; [repeat constructor|]. split; [split; discriminate|].
    rewrite list_elem_of_singleton. naive_solver.
  - split; [exists 2%nat; split; [lia|right; split; [lia|done]]|].
    split; [repeat constructor; by right|]. split; [split; discriminate|].
    split; [intros _; repeat split; by eexists|].
    intros _. do 2 apply list_elem_of_further. apply list_elem_of_here.
  - split; [exists 2%nat; split; [lia|right; split; [lia|done]]|].
    split; [repeat constructor; by right|]. split; [split; discriminate|].
    split; [intros _; repeat split; by eexists|].
    intros _. do 2 apply list_elem_of_further. apply list_elem_of_here.
  - split; [exists 3%nat; split; [lia|right; split; [lia|done]]|].
    split; [repeat constructor; by right|]. split; [split; discriminate|].
    split; [intros _; repeat split; by eexists|].
    intros _. do 3 apply list_elem_of_further. apply list_elem_of_here.
  - split; [exists 3%nat; split; [lia|right; split; [lia|done]]|].
    split; [repeat constructor; by right|]. split; [split; discriminate|].
    split; [intros _; repeat split; by eexists|].
    intros _. do 3 apply list_elem_of_further. apply list_elem_of_here.
  - split; [exists 4%nat; split; [lia|right; split; [lia|done]]|].
    split; [repeat constructor; by right|]. split; [split; discriminate|].
    split; [intros _; repeat split; by eexists|].
    intros _. do 4 apply list_elem_of_further. apply list_elem_of_here.
  - split; [exists 4%nat; split; [lia|right; split; [lia|done]]|].
    split; [repeat constructor; by right|]. split; [split; discriminate|].
    split; [intros _; repeat split; by eexists|].
    intros _. do 4 apply list_elem_of_further. apply list_elem_of_here.
  - split; [exists 4%nat; split; [lia|by left]|].
    split; [repeat constructor; by right|]. split; [done|].
    split; [|intros (_ & _ & [? ?]); discriminate].
    intros H. repeat (apply elem_of_cons in H as [H|H]; [discriminate|]).
    by apply elem_of_nil in H.
Qed.

(** *** What a run leaves of the store *)

(** The store a run leaves has the open transactions of the store it
    started on, untouched, and at most its own in addition. *)
Lemma open_after (rp : Replies) (s : Store) (body : gmap string value) :
  let s' := store (post_products rp body (start s)).2 in
  open s' = open s ∨ ∃ ws, open s' = <[handle s := ws]> (open s).
Proof.
  cbv zeta. by_paths rp s body; cbn; eauto.
Qed.

(** A run never touches the transactions of others: a transaction that is
    open when the request arrives is open afterwards with the same pending
    writes, whatever the request and whatever the store answers; and the
    table of warehouses is not written. *)
Theorem other_transactions_untouched (rp : Replies) (s : Store)
    (body : gmap string value) (t : nat) (ws : list Write) :
  open s !! t = Some ws →
  let s' := store (post_products rp body (start s)).2 in
  open s' !! t = Some ws ∧ t ≠ handle s ∧ warehouses s' = warehouses s.
Proof.
  intros Ht. cbv zeta.
  assert (Hne : handle s ≠ t).
  { intros <-. rewrite handle_fresh in Ht. discriminate. }
  split; [|split; [done|]].
  - destruct (open_after rp s body) as [->|[ws' ->]]; [done|].
    by rewrite lookup_insert_ne.
  - by_paths rp s body; cbn; done.
Qed.

Lemma other_transactions_untouched_witness :
  let s' := store (post_products (no_faults 2) gadget_body
                     (start busy_store)).2 in
  open s' !! 0%nat = open busy_store !! 0%nat ∧ products s' ≠ products busy_store.
Proof.
  cbv zeta.
  destruct (other_transactions_untouched (no_faults 2) busy_store gadget_body
              0%nat
              [InsertProduct {| id := 9; p_attrs := product_attrs widget2_body |}])
    as (H & _ & _); [reflexivity|].
  split; [rewrite H; reflexivity|].
  vm_compute. discriminate.
Defined.

(** *** Answers and rejections *)

(** The handler's promise rejects exactly when opening the transaction is
    refused, or when a call of the [try] block is rejected and the rollback
    in the [catch] is rejected as well; the error it rejects with is that
    of the begin, or that of the rollback.  In both cases nothing has been
    written to the console: the error of the failed insert or commit is
    lost. *)
Theorem rejects_iff (rp : Replies) (s : Store) (body : gmap string value)
    (e : string) :
  let out := post_products rp body (start s) in
  (out.1 = Throw e ↔
     begin_fault rp = Some e
     ∨ (begin_fault rp = None ∧ required_missing body = false
        ∧ is_Some (first_fault rp) ∧ rollback_fault rp = Some e))
  ∧ (out.1 = Throw e → console out.2 = []).
Proof.
  cbv zeta. unfold first_fault.
  by_paths rp s body; cbn; (split; [|done || discriminate]);
    (split; [intros [= ->] || discriminate | intros [?|(? & ? & [? ?] & ?)]]);
    try discriminate; try congruence; eauto 10.
Qed.

(** Whatever the body and whatever the store answers, an answer the
    handler sends is one of three: 201 with the fixed message and the key
    the store assigned, 400 with its fixed body, or 500 with its fixed
    body.  The console has a line exactly in the last case, and it holds
    the error of the first rejected call of the [try] block; that text is
    in no answer. *)
Theorem answers_are_fixed (rp : Replies) (s : Store)
    (body : gmap string value) (r : response) :
  let out := post_products rp body (start s) in
  out.1 = Ok r →
  (r = created (assigned_id rp) ∧ console out.2 = [])
  ∨ (r = missing_fields ∧ console out.2 = [])
  ∨ (r = creation_failed
     ∧ ∃ e, first_fault rp = Some e
            ∧ console out.2 = [("Creation failed:", e)]).
Proof.
  cbv zeta. unfold first_fault.
  by_paths rp s body; cbn; intros [= <-] || discriminate; eauto 10.
Qed.

Lemma answers_are_fixed_witness :
  let out := post_products (constraint_replies widget_store widget2_body 2)
               widget2_body (start widget_store) in
  out.1 = Ok creation_failed
  ∧ console out.2
    = [("Creation failed:", "Validation error: sku must be unique")].
Proof.
  cbv zeta. split; [reflexivity|].
  destruct (answers_are_fixed (constraint_replies widget_store widget2_body 2)
              widget_store widget2_body creation_failed)
    as [[H _]|[[H _]|(_ & e & He & Hc)]]; [reflexivity | | |].
  - vm_compute in H. discriminate.
  - vm_compute in H. discriminate.
  - injection He as <-. exact Hc.
Defined.

(** *** The quantity handed to the store *)

(** Whatever [initial_quantity] is, the quantity of an [Inventory.create]
    is that value when it is truthy, numbers or not, and the number 0
    otherwise: [undefined], [null], [false], [""] and zero never reach
    the store as they are. *)
Theorem quantity_handed_over (rp : Replies) (s : Store)
    (body : gmap string value) (a : InventoryAttrs) (t : nat) :
  InventoryCreate a t ∈ calls (post_products rp body (start s)).2 →
  (truthy (prop body "initial_quantity") = true
   ∧ a_quantity a = prop body "initial_quantity")
  ∨ (falsy (prop body "initial_quantity") ∧ a_quantity a = Int 0).
Proof.
  intros H. apply inventory_call_attrs in H as ->. cbn. unfold or.
  destruct (truthy (prop body "initial_quantity")) eqn:Hq.
  - by left.
  - right. split; [by apply truthy_false_iff | done].
Qed.

Lemma quantity_handed_over_witness :
  let body := <[ "initial_quantity" := Str "many" ]> gadget_body in
  ∃ a, InventoryCreate a 0%nat
         ∈ calls (post_products (no_faults 2) body (start widget_store)).2
       ∧ a_quantity a = Str "many".
Proof.
  cbv zeta.
  exists {| a_productId := 2; a_warehouseId := Int 1;
            a_quantity := Str "many" |}.
  assert (Hin : InventoryCreate
                  {| a_productId := 2; a_warehouseId := Int 1;
                     a_quantity := Str "many" |} 0%nat
                ∈ calls (post_products (no_faults 2)
                           (<[ "initial_quantity" := Str "many" ]> gadget_body)
                           (start widget_store)).2).
  { vm_compute. do 2 apply list_elem_of_further. apply list_elem_of_here. }
  split; [exact Hin|].
  destruct (quantity_handed_over _ _ _ _ _ Hin) as [[_ H]|[_ H]];
    [reflexivity | vm_compute in H; discriminate].
Defined.

Lemma rejects_iff_witness :
  let out := post_products connection_lost gadget_body (start widget_store) in
  out.1 = Throw "ECONNRESET" ∧ console out.2 = [].
Proof.
  cbv zeta.
  destruct (rejects_iff connection_lost widget_store gadget_body "ECONNRESET")
    as [Hiff Hconsole].
  assert (H : (post_products connection_lost gadget_body
                 (start widget_store)).1 = Throw "ECONNRESET").
  { apply Hiff. right. repeat split; by eexists. }
  split; [exact H | exact (Hconsole H)].
Defined.

(** *** Several requests in a row *)

Lemma tables_after (rp : Replies) (s : Store) (body : gmap string value) :
  let out := post_products rp body (start s) in
  (http_status out.1 = Some 201
   ∧ products (store out.2) = products s ++ [product_row rp body]
   ∧ inventory (store out.2) = inventory s ++ [inventory_row rp body])
  ∨ (http_status out.1 ≠ Some 201
     ∧ products (store out.2) = products s
     ∧ inventory (store out.2) = inventory s).
Proof.
  cbv zeta. by_paths rp s body; cbn; try (right; by repeat split).
  by left.
Qed.

Lemma answered_cons (code : Z) (o : result response) outs :
  answered code (o :: outs)
  = ((if decide (http_status o = Some code) then 1 else 0)
     + answered code outs)%nat.
Proof.
  unfold answered. rewrite filter_cons. by destruct (decide _).
Qed.

(** Over any sequence of requests, whatever each holds and whatever the
    store answers to each: there is one outcome per request; the rows the
    tables had are kept, in place; and the product table and the inventory
    table have each grown by exactly as many rows as there were 201
    answers.  So the two tables never drift apart. *)
Theorem serve_tables (reqs : list (Replies * gmap string value)) (s : Store) :
  let served := serve reqs s in
  length served.1 = length reqs
  ∧ products s `prefix_of` products served.2
  ∧ inventory s `prefix_of` inventory served.2
  ∧ length (products served.2)
    = (length (products s) + answered 201 served.1)%nat
  ∧ length (inventory served.2)
    = (length (inventory s) + answered 201 served.1)%nat.
Proof.
  cbv zeta. revert s. induction reqs as [|[rp body] reqs IH]; intros s.
  - cbn. repeat split; try done; unfold answered; cbn; lia.
  - cbn [serve fst snd].
    destruct (IH (store (post_products rp body (start s)).2))
      as (Hlen & Hp & Hi & Hnp & Hni).
    rewrite answered_cons, Hnp, Hni.
    destruct (tables_after rp s body) as [(H201 & Ep & Ei)|(Hnot & Ep & Ei)];
      rewrite Ep, Ei in *.
    + rewrite decide_True by done. rewrite !length_app. cbn.
      split; [by rewrite Hlen|].
      split; [etrans; [apply prefix_app_r; reflexivity|exact Hp]|].
      split; [etrans; [apply prefix_app_r; reflexivity|exact Hi]|].
      split; lia.
    + rewrite decide_False by done.
      split; [cbn; by rewrite Hlen|]. repeat split; try done; lia.
Qed.

Lemma open_after_handled (rp : Replies) (s : Store)
    (body : gmap string value) :
  begin_fault rp = None → rollback_fault rp = None →
  let out := post_products rp body (start s) in
  (http_status out.1 = Some 400
   ∧ open (store out.2) = <[handle s := []]> (open s))
  ∨ (http_status out.1 ≠ Some 400 ∧ open (store out.2) = open s).
Proof.
  intros Hb Hr. cbv zeta.
  by_paths rp s body; try discriminate; cbn; try (right; by split).
  by left.
Qed.

(** Every 400 leaks a transaction.  Over a sequence of requests for which
    the store opens the transaction and completes any rollback, the number
    of open transactions grows by exactly the number of 400 answers; and
    whatever the store answers, no sequence of requests closes a
    transaction that was open before it. *)
Theorem serve_leaks (reqs : list (Replies * gmap string value)) (s : Store) :
  let served := serve reqs s in
  open s ⊆ open served.2
  ∧ (Forall (λ rq, begin_fault rq.1 = None ∧ rollback_fault rq.1 = None) reqs →
     size (open served.2) = (size (open s) + answered 400 served.1)%nat).
Proof.
  cbv zeta. revert s. induction reqs as [|[rp body] reqs IH]; intros s.
  - cbn. split; [done|]. intros _. unfold answered. cbn. lia.
  - cbn [serve fst snd].
    destruct (IH (store (post_products rp body (start s)).2)) as [Hsub Hsize].
    split.
    + etrans; [|exact Hsub].
      destruct (open_after rp s body) as [->|[ws ->]]; [done|].
      apply insert_subseteq, handle_fresh.
    + intros Hall. apply Forall_cons in Hall as [[Hb Hr] Hall]. cbn in Hb, Hr.
      rewrite answered_cons, (Hsize Hall).
      destruct (open_after_handled rp s body Hb Hr) as [[H400 ->]|[Hnot ->]].
      * rewrite decide_True by done.
        rewrite map_size_insert_None by apply handle_fresh. lia.
      * rewrite decide_False by done. lia.
Qed.

Lemma serve_leaks_witness :
  let served := serve [(no_faults 2, ∅); (no_faults 2, ∅);
                       (no_faults 2, gadget_body)] widget_store in
  size (open widget_store) = 0%nat ∧ size (open served.2) = 2%nat.
Proof.
  cbv zeta. split; [reflexivity|].
  destruct (serve_leaks [(no_faults 2, ∅); (no_faults 2, ∅);
                         (no_faults 2, gadget_body)] widget_store)
    as [_ H].
  rewrite H; [reflexivity|]. repeat constructor.
Defined.

(** *** What a 201 refers to *)

(** When the answer is 201 its [product_id] is the key of the product row
    that is now last in the table; that row holds the body's [name], [sku]
    and [price] as they were sent, and the inventory row that is now last
    references that key and holds the body's [warehouse_id] as sent. *)
Theorem created_refers_to_row (rp : Replies) (s : Store)
    (body : gmap string value) (r : response) :
  let out := post_products rp body (start s) in
  out.1 = Ok r → status r = 201 →
  ∃ p i,
    last (products (store out.2)) = Some p
    ∧ last (inventory (store out.2)) = Some i
    ∧ get (Js.body r) "product_id" = Int (id p)
    ∧ get (Js.body r) "message" = Str "Product created successfully"
    ∧ a_name (p_attrs p) = prop body "name"
    ∧ a_sku (p_attrs p) = prop body "sku"
    ∧ a_price (p_attrs p) = prop body "price"
    ∧ a_productId (i_attrs i) = id p
    ∧ a_warehouseId (i_attrs i) = prop body "warehouse_id".
Proof.
  cbv zeta.
  by_paths rp s body; cbn; intros [= <-] || discriminate; try discriminate.
  intros _. exists (product_row rp body), (inventory_row rp body).
  rewrite !last_snoc. by repeat split.
Qed.

Lemma created_refers_to_row_witness :
  let out := post_products (no_faults 2) gadget_body (start widget_store) in
  ∃ p, last (products (store out.2)) = Some p
       ∧ id p = 2 ∧ a_sku (p_attrs p) = Str "G-1".
Proof.
  cbv zeta.
  destruct (created_refers_to_row (no_faults 2) widget_store gadget_body
              (created 2))
    as (p & i & Hp & _ & Hid & _ & _ & Hsku & _); [reflexivity ..|].
  exists p. split; [exact Hp|]. split.
  - cbn in Hid. by injection Hid.
  - rewrite Hsku. reflexivity.
Defined.

End ProvisioningMore.

(** * Further properties of the alerts handler *)

Module AlertsMore.
Import Js Eff Alerts AlertsProofs.

(** *** Order and number of the alerts *)

Lemma alerts_of_body (alerts : list value) :
  alerts_of (Response 200 (alerts_body alerts)) = alerts.
Proof. reflexivity. Qed.

(** The alerts come in the order of the rows the read returned, one for
    each row with quantity below 20 and none for the others: rows that
    repeat give alerts that repeat, and there are never more alerts than
    rows the loop went through. *)
Theorem alerts_in_row_order (db : Db) (c : Z) :
  let out := get_low_stock db None c start in
  ∃ r, out.1 = Ok r
       ∧ alerts_of r = alert <$> filter low (low_stock_query db c)
       ∧ alerts_of r `sublist_of` (alert <$> low_stock_query db c)
       ∧ get (body r) "total_alerts"
         = Int (Z.of_nat (length (filter low (low_stock_query db c))))
       ∧ (length (alerts_of r) ≤ iterations out.2)%nat.
Proof.
  cbv zeta. rewrite run_ok.
  exists (Response 200 (alerts_body (pushed (low_stock_query db c)))).
  rewrite alerts_of_body. unfold pushed. cbn [fst snd iterations].
  split; [done|]. split; [done|]. split; [|split].
  - apply fmap_sublist, sublist_filter.
  - cbn. by rewrite length_fmap.
  - rewrite length_fmap. apply length_filter.
Qed.

(** *** The company's warehouses are all that matters *)

Lemma filter_company_row (c : Z) (p : Product) (i : Inventory)
    (w : Warehouse) (l : list Supplier) :
  filter (of_company c) (l ≫= (λ s, [(p, i, w, s)]))
  = if decide (w_company_id w = c) then l ≫= (λ s, [(p, i, w, s)]) else [].
Proof.
  induction l as [|s l IH]; [by destruct (decide _)|].
  rewrite bind_cons, filter_app.
  etrans; [apply (f_equal (app _)); exact IH|].
  rewrite filter_cons, filter_nil. unfold of_company at 1. cbn [fst snd].
  by destruct (decide (w_company_id w = c)).
Qed.

Lemma filter_company_warehouses (c : Z) (g : Warehouse → list Joined)
    (B : Warehouse → Prop) `{!∀ w, Decision (B w)} (ws : list Warehouse) :
  (∀ w, filter (of_company c) (g w)
        = if decide (w_company_id w = c) then g w else []) →
  filter (of_company c) (filter B ws ≫= g)
  = filter B (filter (λ w, w_company_id w = c) ws) ≫= g.
Proof.
  intros Hg. induction ws as [|w ws IH]; [done|].
  rewrite !filter_cons.
  destruct (decide (B w)) as [Hb|Hb], (decide (w_company_id w = c)) as [Hc|Hc].
  - rewrite filter_cons_True by done.
    rewrite !bind_cons, filter_app, IH, Hg. by rewrite decide_True.
  - rewrite bind_cons, filter_app, IH, Hg. by rewrite decide_False.
  - by rewrite filter_cons_False.
  - done.
Qed.

(** In the enumeration of the model, taking the other companies'
    warehouses out changes nothing at all. *)
Lemma rows_without_other_warehouses (db : Db) (c : Z) :
  low_stock_query db c = low_stock_query (only_warehouses_of c db) c.
Proof.
  unfold low_stock_query, from_join. f_equal. cbn.
  rewrite !filter_bind. apply list_bind_ext; [|done]. intros p.
  rewrite !filter_bind. apply list_bind_ext; [|done]. intros i.
  rewrite !filter_company_warehouses
    by (intros w; apply filter_company_row).
  f_equal. f_equal. symmetry. by apply list_filter_filter_l.
Qed.

(** Up to the order of the rows, the rows returned for a company are the
    same when the warehouses of all other companies are taken out of the
    tables before the join, and so are the alerts of the answer, their
    number, and the reads and loop steps of the request: nothing another
    company owns has any part in a company's alerts. *)
Theorem other_warehouses_irrelevant (db : Db) (c : Z) :
  let out := get_low_stock db None c start in
  let out' := get_low_stock (only_warehouses_of c db) None c start in
  low_stock_query db c ≡ₚ low_stock_query (only_warehouses_of c db) c
  ∧ ∃ alerts alerts' : list value,
      out.1 = Ok (Response 200 (alerts_body alerts))
      ∧ out'.1 = Ok (Response 200 (alerts_body alerts'))
      ∧ alerts ≡ₚ alerts'
      ∧ length alerts = length alerts'
      ∧ queries out.2 = queries out'.2
      ∧ iterations out.2 = iterations out'.2.
Proof.
  cbv zeta. rewrite !run_ok, <- rows_without_other_warehouses.
  split; [done|]. by eexists _, _.
Qed.

(** *** Products without a supplier row *)

(** The join is an inner join: when no supplier row has the key that the
    products with a given id name as their supplier, no alert carries
    that product id, whatever the stock. *)
Theorem no_supplier_no_alert (db : Db) (c pid : Z) (r : response) (a : value) :
  Forall (λ p, p_id p = pid →
               Forall (λ s, p_supplier_id p ≠ s_id s) (suppliers db))
    (products db) →
  (get_low_stock db None c start).1 = Ok r →
  a ∈ alerts_of r →
  get a "product_id" ≠ Int pid.
Proof.
  intros Hnone Hr Ha. rewrite run_ok in Hr. injection Hr as <-.
  rewrite alerts_of_body in Ha.
  apply elem_of_pushed in Ha as (item & Hitem & _ & ->).
  apply elem_of_low_stock_query in Hitem as (p & i & w & s & Hj & _ & ->).
  apply elem_of_from_join in Hj as (Hp & _ & _ & Hs & _ & _ & Eps).
  cbn. intros [= Hid].
  rewrite Forall_forall in Hnone. specialize (Hnone p Hp Hid).
  rewrite Forall_forall in Hnone. by apply (Hnone s Hs).
Qed.

Lemma no_supplier_no_alert_witness :
  Exists (λ i, i_product_id i = 12 ∧ i_warehouse_id i = 5 ∧ i_quantity i < 20)
    (inventory gizmo_db)
  ∧ Forall (λ a, get a "product_id" ≠ Int 12)
      (alerts_of (Response 200
                    (alerts_body (pushed (low_stock_query gizmo_db 1))))).
Proof.
  split; [compute_done|].
  apply Forall_forall. intros a Ha.
  apply (no_supplier_no_alert gizmo_db 1 12
           (Response 200 (alerts_body (pushed (low_stock_query gizmo_db 1))))
           a); [compute_done | by rewrite run_ok | exact Ha].
Defined.

(** *** The handler always answers *)

(** Unlike a rejected read, nothing makes this handler's promise reject:
    every request is answered, with 200 when the read completes and with
    500 and the fixed body when it fails; the error text of a failed read
    is the one line written to the console, the loop is not entered, and
    the answer carries no alerts. *)
Theorem alerts_always_answered (db : Db) (failure : option string) (c : Z) :
  let out := get_low_stock db failure c start in
  ∃ r, out.1 = Ok r
       ∧ (status r = 500 ↔ is_Some failure)
       ∧ (status r = 200 ↔ failure = None)
       ∧ console out.2 = match failure with Some e => [e] | None => [] end
       ∧ (is_Some failure →
          r = server_error ∧ alerts_of r = [] ∧ iterations out.2 = 0%nat).
Proof.
  cbv zeta. destruct failure as [e|].
  - rewrite run_failed. exists server_error. cbn.
    repeat split; try done; eauto.
  - rewrite run_ok. eexists. split; [done|]. cbn.
    repeat split; try done; intros [? ?]; discriminate.
Qed.

Lemma alerts_always_answered_witness :
  let out := get_low_stock widget_db (Some "ER_CON_COUNT_ERROR") 1 start in
  out.1 = Ok server_error ∧ console out.2 = ["ER_CON_COUNT_ERROR"].
Proof.
  cbv zeta.
  destruct (alerts_always_answered widget_db (Some "ER_CON_COUNT_ERROR") 1)
    as (r & Hr & _ & _ & Hc & Hfail).
  destruct Hfail as (-> & _ & _); [by eexists|].
  split; [exact Hr | exact Hc].
Defined.

End AlertsMore.
